(** * Rule identifiers of the unified alerting UI

    A shallow embedding of [public/app/features/alerting/unified/utils/rules.ts]:
    the structural classifiers of ruler rules, the content hash of Loki/Cortex
    rules, and the string codec of rule identifiers, with the properties the
    specification states about them.

    JavaScript strings are modelled by [string]: the characters are the UTF-8
    bytes of the text.  Every operation of the file works on the ASCII
    characters [$], [_], [D] ... and on quoting, so it commutes with that
    encoding.  A call that throws returns [Throw msg]. *)

From Stdlib Require Import String Ascii List ZArith Lia Bool Permutation Sorted.
From Stdlib Require Import DecimalString.
Import ListNotations.
Open Scope string_scope.

(** ** Results of calls that may throw *)

Inductive result (A : Type) : Type :=
| Ok (a : A)
| Throw (message : string).
Arguments Ok {A} a.
Arguments Throw {A} message.

Definition bind {A B : Type} (r : result A) (k : A -> result B) : result B :=
  match r with
  | Ok a => k a
  | Throw m => Throw m
  end.

Notation "x <- r ;; k" := (bind r (fun x => k))
  (at level 61, r at next level, right associativity).

(** ** String primitives of the platform *)

(** [s.startsWith(pat)]. *)
Fixpoint startsWith (pat s : string) : bool :=
  match pat, s with
  | EmptyString, _ => true
  | String _ _, EmptyString => false
  | String a pat', String b s' => Ascii.eqb a b && startsWith pat' s'
  end.

(** [s.includes(pat)]: [pat] occurs somewhere in [s]. *)
Fixpoint includes (pat s : string) : bool :=
  startsWith pat s ||
  match s with
  | EmptyString => false
  | String _ s' => includes pat s'
  end.

(** [s.replace(/pat/g, rep)] for a literal, non-empty pattern and a
    replacement without substitution patterns: the scan goes left to right,
    a match is replaced and the scan resumes after it, so matches never
    overlap.  [skip] counts the characters of the current match that are
    still to be passed over. *)
Fixpoint replace_from (pat rep : string) (skip : nat) (s : string) : string :=
  match s with
  | EmptyString => EmptyString
  | String c s' =>
      match skip with
      | S k => replace_from pat rep k s'
      | O =>
          if startsWith pat s
          then rep ++ replace_from pat rep (String.length pat - 1) s'
          else String c (replace_from pat rep 0 s')
      end
  end.

Definition replaceAll (pat rep s : string) : string := replace_from pat rep 0 s.

(** [s.split(sep)] for a one-character separator; the result is never
    empty, and [''.split(sep)] is [['']]. *)
Fixpoint split (sep : ascii) (s : string) : list string :=
  match s with
  | EmptyString => [EmptyString]
  | String c s' =>
      if Ascii.eqb c sep then EmptyString :: split sep s'
      else match split sep s' with
           | part :: parts => String c part :: parts
           | [] => [String c EmptyString]
           end
  end.

(** [parts.join(sep)]. *)
Fixpoint join (sep : string) (parts : list string) : string :=
  match parts with
  | [] => EmptyString
  | [part] => part
  | part :: parts' => part ++ sep ++ join sep parts'
  end.

(** ** Escaping of the delimiter *)

Definition escapeDollars (value : string) : string :=
  replaceAll "$" "_DOLLAR_" value.

Definition unesacapeDollars (value : string) : string :=
  replaceAll "_DOLLAR_" "$" value.

(** ** Rule identifiers and their codec

    The numbers of the platform, with [String(n)] and [Number(s)], are
    parameters: the codec only passes a number through these two
    conversions. *)

Section Codec.

Variable number : Type.
(** [String(n)] on a number. *)
Variable String_number : number -> string.
(** [Number(s)] on a string; NaN is one of the numbers. *)
Variable Number : string -> number.

(** [RuleIdentifier = CloudRuleIdentifier | GrafanaRuleIdentifier]. *)
Inductive RuleIdentifier : Type :=
| GrafanaRuleIdentifier (uid : string)
| CloudRuleIdentifier (ruleSourceName namespace groupName : string)
                      (ruleHash : number).

(** ['uid' in location]. *)
Definition isGrafanaRuleIdentifier (location : RuleIdentifier) : bool :=
  match location with
  | GrafanaRuleIdentifier _ => true
  | CloudRuleIdentifier _ _ _ _ => false
  end.

(** ['ruleSourceName' in location]. *)
Definition isCloudRuleIdentifier (location : RuleIdentifier) : bool :=
  match location with
  | GrafanaRuleIdentifier _ => false
  | CloudRuleIdentifier _ _ _ _ => true
  end.

(** [.map(String)] leaves the three strings as they are and converts the
    hash. *)
Definition stringifyRuleIdentifier (location : RuleIdentifier) : string :=
  match location with
  | GrafanaRuleIdentifier uid => uid
  | CloudRuleIdentifier ruleSourceName namespace groupName ruleHash =>
      join "$"
        (map escapeDollars
           [ruleSourceName; namespace; groupName; String_number ruleHash])
  end.

Definition parse_error (location : string) : string :=
  "Failed to parse rule location: " ++ location.

Definition parseRuleIdentifier (location : string) : result RuleIdentifier :=
  let parts := split "$" location in
  if Nat.eqb (List.length parts) 1 then
    Ok (GrafanaRuleIdentifier location)
  else if Nat.eqb (List.length parts) 4 then
    let unescaped := map unesacapeDollars parts in
    let ruleSourceName := nth 0 unescaped EmptyString in
    let namespace := nth 1 unescaped EmptyString in
    let groupName := nth 2 unescaped EmptyString in
    let ruleHash := nth 3 unescaped EmptyString in
    Ok (CloudRuleIdentifier ruleSourceName namespace groupName
          (Number ruleHash))
  else
    Throw (parse_error location).

End Codec.

Arguments GrafanaRuleIdentifier {number} uid.
Arguments CloudRuleIdentifier {number} ruleSourceName namespace groupName ruleHash.
Arguments isGrafanaRuleIdentifier {number} location.
Arguments isCloudRuleIdentifier {number} location.

(** ** JSON serialisation

    [JSON.stringify] on the values the file serialises: strings, arrays, and
    [undefined] inside an array, which is written [null]. *)

#[warnings="-register-all"]
Inductive json : Type :=
| JNull
| JString (s : string)
| JArray (items : list json).

Definition dquote : ascii := "034"%char.
Definition backslash : ascii := "092"%char.

Definition hexDigit (n : nat) : ascii :=
  nth n ["0"; "1"; "2"; "3"; "4"; "5"; "6"; "7";
         "8"; "9"; "a"; "b"; "c"; "d"; "e"; "f"]%char "0"%char.

(** One character of [QuoteJSONString]: the two-character escapes, [\u00xx]
    for the other control characters, the character itself otherwise. *)
Definition quoteChar (c : ascii) : string :=
  let n := nat_of_ascii c in
  if Nat.eqb n 8 then String backslash "b"
  else if Nat.eqb n 9 then String backslash "t"
  else if Nat.eqb n 10 then String backslash "n"
  else if Nat.eqb n 12 then String backslash "f"
  else if Nat.eqb n 13 then String backslash "r"
  else if Nat.eqb n 34 then String backslash (String dquote EmptyString)
  else if Nat.eqb n 92 then String backslash (String backslash EmptyString)
  else if Nat.ltb n 32 then
    String backslash
      ("u00" ++ String (hexDigit (n / 16)) (String (hexDigit (n mod 16)) EmptyString))
  else String c EmptyString.

Fixpoint quoteChars (s : string) : string :=
  match s with
  | EmptyString => EmptyString
  | String c s' => quoteChar c ++ quoteChars s'
  end.

Definition QuoteJSONString (s : string) : string :=
  String dquote (quoteChars s ++ String dquote EmptyString).

Fixpoint JSON_stringify (v : json) : string :=
  match v with
  | JNull => "null"
  | JString s => QuoteJSONString s
  | JArray items => "[" ++ join "," (map JSON_stringify items) ++ "]"
  end.

(** A property that may be missing, as an element of an array literal. *)
Definition json_of_property (p : option string) : json :=
  match p with
  | Some s => JString s
  | None => JNull
  end.

(** ** Sorting

    [Array.prototype.sort(comparefn)] is stable; for a consistent comparator
    every stable sort returns the same array.  This one inserts from the
    right, placing an item before the first item it does not come after. *)

Fixpoint sort_insert {A : Type} (comparefn : A -> A -> Z) (x : A)
    (sorted : list A) : list A :=
  match sorted with
  | [] => [x]
  | y :: rest =>
      if (0 <? comparefn x y)%Z then y :: sort_insert comparefn x rest
      else x :: sorted
  end.

Definition sort {A : Type} (comparefn : A -> A -> Z) (items : list A) : list A :=
  fold_right (sort_insert comparefn) [] items.

(** ** Ruler rules *)

(** [Labels] and [Annotations]: an object from label names to values.  The
    list holds its properties in the order of their insertion; a name occurs
    once. *)
Definition Labels : Type := list (string * string).
Definition Annotations : Type := Labels.

(** The value of a run of decimal digits. *)
Definition isDigit (c : ascii) : bool :=
  Nat.leb 48 (nat_of_ascii c) && Nat.leb (nat_of_ascii c) 57.

Fixpoint digitsValue (acc : Z) (s : string) : option Z :=
  match s with
  | EmptyString => Some acc
  | String c s' =>
      if isDigit c
      then digitsValue (10 * acc + Z.of_nat (nat_of_ascii c - 48)) s'
      else None
  end.

(** An array index among property names: the canonical decimal text of an
    integer from 0 to 2^32 - 2. *)
Definition arrayIndex (key : string) : option Z :=
  match key with
  | EmptyString => None
  | String c rest =>
      if Ascii.eqb c "0" && negb (String.eqb rest EmptyString) then None
      else
        match digitsValue 0 key with
        | Some v => if (v <=? 4294967294)%Z then Some v else None
        | None => None
        end
  end.

Definition isArrayIndex (key : string) : bool :=
  match arrayIndex key with
  | Some _ => true
  | None => false
  end.

Definition indexValue (key : string) : Z :=
  match arrayIndex key with
  | Some v => v
  | None => 0
  end.

(** [Object.entries(item)], and the order in which [JSON.stringify] writes
    the members of an object: the properties whose names are array indices
    in ascending numeric order, then the others in the order of their
    insertion. *)
Definition Object_entries (item : Labels) : list (string * string) :=
  sort (fun a b => (indexValue (fst a) - indexValue (fst b))%Z)
       (filter (fun entry => isArrayIndex (fst entry)) item)
  ++ filter (fun entry => negb (isArrayIndex (fst entry))) item.

(** The [grafana_alert] block; [getRuleIdentifier] reads its [uid] under a
    non-null assertion. *)
Record GrafanaRuleDefinition : Type := { uid : string }.

(** [RulerRuleDTO]: a structurally typed object.  A field is [None] when the
    object has no such property. *)
Record RulerRuleDTO : Type := {
  record : option string;
  alert : option string;
  expr : option string;
  labels : option Labels;
  annotations : option Annotations;
  grafana_alert : option GrafanaRuleDefinition
}.

Definition has_property {A : Type} (p : option A) : bool :=
  match p with
  | Some _ => true
  | None => false
  end.

(** ['alert' in rule]. *)
Definition isAlertingRulerRule (rule : RulerRuleDTO) : bool :=
  has_property (alert rule).

(** ['record' in rule]. *)
Definition isRecordingRulerRule (rule : RulerRuleDTO) : bool :=
  has_property (record rule).

(** [typeof rule === 'object' && 'grafana_alert' in rule]; the parameter is
    optional, [None] is [undefined]. *)
Definition isGrafanaRulerRule (rule : option RulerRuleDTO) : bool :=
  match rule with
  | None => false
  | Some r => has_property (grafana_alert r)
  end.

Definition unsupported_rule : string :=
  "only recording and alerting ruler rules can be hashed".

Section Fingerprint.

Variable number : Type.
(** [hash] of [utils/misc]: a deterministic function of the string. *)
Variable hash : string -> number.
(** [a.localeCompare(b)]; only the sign of the result is used. *)
Variable localeCompare : string -> string -> Z.

Definition entry_json (entry : string * string) : json :=
  JArray [JString (fst entry); JString (snd entry)].

Definition hashLabelsOrAnnotations (item : option Labels) : string :=
  JSON_stringify
    (JArray
       (map entry_json
          (sort (fun a b => localeCompare (fst a) (fst b))
             (Object_entries
                (match item with
                 | Some o => o
                 | None => []
                 end))))).

Definition hashRulerRule (rule : RulerRuleDTO) : result number :=
  if isRecordingRulerRule rule then
    Ok (hash
          (JSON_stringify
             (JArray
                [json_of_property (record rule);
                 json_of_property (expr rule);
                 JString (hashLabelsOrAnnotations (labels rule))])))
  else if isAlertingRulerRule rule then
    Ok (hash
          (JSON_stringify
             (JArray
                [json_of_property (alert rule);
                 json_of_property (expr rule);
                 JString (hashLabelsOrAnnotations (annotations rule));
                 JString (hashLabelsOrAnnotations (labels rule))])))
  else
    Throw unsupported_rule.

Definition getRuleIdentifier (ruleSourceName namespace groupName : string)
    (rule : RulerRuleDTO) : result (RuleIdentifier number) :=
  if isGrafanaRulerRule (Some rule) then
    match grafana_alert rule with
    | Some definition => Ok (GrafanaRuleIdentifier (uid definition))
    | None => Throw "TypeError: Cannot read properties of undefined"
    end
  else
    ruleHash <- hashRulerRule rule ;;
    Ok (CloudRuleIdentifier ruleSourceName namespace groupName ruleHash).

End Fingerprint.

(** [RuleWithLocation], with the fields the derivation reads. *)
Record RuleGroup : Type := { name : string }.

Record RuleWithLocation : Type := {
  ruleSourceName : string;
  namespace : string;
  group : RuleGroup;
  rule : RulerRuleDTO
}.

Definition ruleWithLocationToRuleIdentifier {number : Type}
    (hash : string -> number) (localeCompare : string -> string -> Z)
    (ruleWithLocation : RuleWithLocation) : result (RuleIdentifier number) :=
  getRuleIdentifier number hash localeCompare
    (ruleSourceName ruleWithLocation)
    (namespace ruleWithLocation)
    (name (group ruleWithLocation))
    (rule ruleWithLocation).

(** ** An instance of the platform: integer numbers

    Fingerprints are integers.  [IntNumber] holds the integer values of the
    platform's numbers and NaN; it serves to run the definitions on concrete
    inputs.  [String_int] and [Number_int] agree with [String] and [Number]
    on safe integers and on the texts used here: after trimming ASCII white
    space, the empty text is 0, a signed run of decimal digits is its value,
    and a text that is no numeric literal is NaN.  Fractions, exponents,
    prefixed literals and the infinities lie outside this instance. *)

Inductive IntNumber : Type :=
| NaN
| Int (value : Z).

Definition String_int (n : IntNumber) : string :=
  match n with
  | NaN => "NaN"
  | Int value => NilZero.string_of_int (Z.to_int value)
  end.

Definition isWhiteSpace (c : ascii) : bool :=
  let n := nat_of_ascii c in
  Nat.eqb n 32 || (Nat.leb 9 n && Nat.leb n 13).

Fixpoint trimStart (s : string) : string :=
  match s with
  | EmptyString => EmptyString
  | String c s' => if isWhiteSpace c then trimStart s' else s
  end.

Fixpoint trimEnd (s : string) : string :=
  match s with
  | EmptyString => EmptyString
  | String c s' =>
      match trimEnd s' with
      | EmptyString => if isWhiteSpace c then EmptyString else String c EmptyString
      | rest => String c rest
      end
  end.

Definition unsignedValue (s : string) : option Z :=
  match s with
  | EmptyString => None
  | _ => digitsValue 0 s
  end.

Definition Number_int (s : string) : IntNumber :=
  match trimEnd (trimStart s) with
  | EmptyString => Int 0
  | String c s' as literal =>
      if Ascii.eqb c "-" then
        match unsignedValue s' with
        | Some v => Int (- v)
        | None => NaN
        end
      else if Ascii.eqb c "+" then
        match unsignedValue s' with
        | Some v => Int v
        | None => NaN
        end
      else
        match unsignedValue literal with
        | Some v => Int v
        | None => NaN
        end
  end.

(** Wrap-around to a signed 32-bit integer. *)
Definition wrap32 (z : Z) : Z :=
  ((z + 2147483648) mod 4294967296 - 2147483648)%Z.

Fixpoint hash_from (h : Z) (s : string) : Z :=
  match s with
  | EmptyString => h
  | String c s' => hash_from (wrap32 (h * 31 + Z.of_nat (nat_of_ascii c))) s'
  end.

(** Modelled from the spec: the string hash of [utils/misc] is not among the
    sources; the specification takes it as a deterministic function from
    strings to 32-bit integers.  This one, a multiplicative hash wrapped to 32
    bits, stands for it where a concrete input is evaluated. *)
Definition sampleHash (value : string) : IntNumber := Int (hash_from 0 value).

(** Two comparators for [localeCompare].  [codeUnitCompare] orders by
    character codes and rates only equal strings as equal. *)
Definition codeUnitCompare (a b : string) : Z :=
  match String.compare a b with
  | Eq => 0
  | Lt => -1
  | Gt => 1
  end.

(** U+2126 OHM SIGN and U+03A9 GREEK CAPITAL LETTER OMEGA, in UTF-8.  The
    two are canonically equivalent: the first decomposes to the second. *)
Definition ohmSign : string :=
  String "226"%char (String "132"%char (String "166"%char EmptyString)).
Definition capitalOmega : string :=
  String "206"%char (String "169"%char EmptyString).

(** ECMA-262 requires [localeCompare] to return 0 on canonically equivalent
    strings even when they are distinguishable.  [canonicalCompare] does so
    for the ohm sign: it orders by character codes after the canonical
    decomposition of that one character. *)
Definition canonicalCompare (a b : string) : Z :=
  codeUnitCompare (replaceAll ohmSign capitalOmega a)
                  (replaceAll ohmSign capitalOmega b).

(** ** Predicates of the statements *)

(** A field that escaping followed by unescaping gives back: it contains
    neither the placeholder nor a [$] right after [_DOLLAR]. *)
Definition placeholder_free (field : string) : bool :=
  negb (includes "_DOLLAR_" field) && negb (includes "_DOLLAR$" field).

(** The identifiers on which the codec is the identity. *)
Definition round_trippable {number : Type} (String_number : number -> string)
    (Number : string -> number) (id : RuleIdentifier number) : Prop :=
  match id with
  | GrafanaRuleIdentifier uid => includes "$" uid = false
  | CloudRuleIdentifier ruleSourceName namespace groupName ruleHash =>
      placeholder_free ruleSourceName = true /\
      placeholder_free namespace = true /\
      placeholder_free groupName = true /\
      placeholder_free (String_number ruleHash) = true /\
      Number (String_number ruleHash) = ruleHash
  end.

(** The text [JSON.stringify] writes for an array of strings. *)
Definition serialized_tuple (fields : list string) : string :=
  "[" ++ join "," (map QuoteJSONString fields) ++ "]".

Fixpoint count_true (bs : list bool) : nat :=
  match bs with
  | [] => 0
  | b :: bs' => (if b then 1 else 0) + count_true bs'
  end.

(** How many of the three classifiers accept a rule. *)
Definition classifiers_holding (rule : RulerRuleDTO) : nat :=
  count_true [isGrafanaRulerRule (Some rule);
              isRecordingRulerRule rule;
              isAlertingRulerRule rule].

(** How many of the properties [grafana_alert], [record] and [alert] a rule
    has. *)
Definition distinguishing_fields (rule : RulerRuleDTO) : nat :=
  (match grafana_alert rule with Some _ => 1 | None => 0 end) +
  (match record rule with Some _ => 1 | None => 0 end) +
  (match alert rule with Some _ => 1 | None => 0 end).

(** A consistent comparator: the sign of its result is a total preorder.
    ECMA-262 requires it of [localeCompare]. *)
Record ConsistentComparator (comparefn : string -> string -> Z) : Prop := {
  comparator_flip : forall a b, (comparefn a b < 0 <-> 0 < comparefn b a)%Z;
  comparator_trans : forall a b c,
    (comparefn a b <= 0)%Z -> (comparefn b c <= 0)%Z -> (comparefn a c <= 0)%Z
}.

(** The comparator rates no two distinct names of the mapping as equal. *)
Definition distinguishes (comparefn : string -> string -> Z) (item : Labels) : Prop :=
  forall a b, In a (map fst item) -> In b (map fst item) ->
    comparefn a b = 0%Z -> a = b.

(** ** Sample inputs *)

(** A recording rule of a Cortex ruler. *)
Definition cpuRecordingRule : RulerRuleDTO := {|
  record := Some "cpu:alert";
  alert := None;
  expr := Some "up == 0";
  labels := Some [("team", "infra")];
  annotations := None;
  grafana_alert := None
|}.

(** An alerting rule of a Cortex ruler. *)
Definition highLoadAlertingRule : RulerRuleDTO := {|
  record := None;
  alert := Some "HighLoad";
  expr := Some "load > 4";
  labels := Some [("severity", "page"); ("team", "infra")];
  annotations := Some [("summary", "load is high")];
  grafana_alert := None
|}.

(** A Grafana managed rule. *)
Definition grafanaManagedRule : RulerRuleDTO := {|
  record := None;
  alert := None;
  expr := None;
  labels := None;
  annotations := None;
  grafana_alert := Some {| uid := "abc123" |}
|}.

(** An object with both an [alert] and a [record] property. *)
Definition alertAndRecordRule : RulerRuleDTO := {|
  record := Some "cpu:alert";
  alert := Some "HighLoad";
  expr := Some "up == 0";
  labels := None;
  annotations := None;
  grafana_alert := None
|}.

Definition cortexIdentifier : RuleIdentifier IntNumber :=
  CloudRuleIdentifier "cortex$prod" "ns-a" "grp-1" (Int 1522229344).

(** A cloud identifier whose source name holds the placeholder. *)
Definition placeholderIdentifier : RuleIdentifier IntNumber :=
  CloudRuleIdentifier "a_DOLLAR_b" "ns-a" "grp-1" (Int 7).

(** A Grafana identifier whose uid holds the delimiter. *)
Definition dollarUidIdentifier : RuleIdentifier IntNumber :=
  GrafanaRuleIdentifier "a$b".

(** The same two labels, inserted in either order. *)
Definition teamThenEnv : Labels := [("team", "infra"); ("env", "prod")].
Definition envThenTeam : Labels := [("env", "prod"); ("team", "infra")].

(** Two labels whose names are canonically equivalent, inserted in either
    order. *)
Definition ohmThenOmega : Labels := [(ohmSign, "1"); (capitalOmega, "2")].
Definition omegaThenOhm : Labels := [(capitalOmega, "2"); (ohmSign, "1")].

(** ** Further functions of the file *)

(** [Alert], with the property [alertInstanceKey] reads. *)
Module AlertDTO.
Record Alert : Type := { labels : Labels }.
End AlertDTO.

(** [JSON.stringify] on an object whose values are strings: the members in
    the order of [Object.entries]. *)
Definition member_text (entry : string * string) : string :=
  QuoteJSONString (fst entry) ++ ":" ++ QuoteJSONString (snd entry).

Definition JSON_stringify_object (o : Labels) : string :=
  "{" ++ join "," (map member_text (Object_entries o)) ++ "}".

Definition alertInstanceKey (alert : AlertDTO.Alert) : string :=
  JSON_stringify_object (AlertDTO.labels alert).

(** ** Further predicates of the statements *)

(** The number of occurrences of a character. *)
Fixpoint count_char (c : ascii) (s : string) : nat :=
  match s with
  | EmptyString => 0
  | String d s' => (if Ascii.eqb d c then 1 else 0) + count_char c s'
  end.

(** [s.slice(k)]. *)
Fixpoint dropChars (k : nat) (s : string) : string :=
  match k, s with
  | O, _ => s
  | S _, EmptyString => EmptyString
  | S k', String _ s' => dropChars k' s'
  end.

(** [item || {}]. *)
Definition labels_or_empty (item : option Labels) : Labels :=
  match item with
  | Some o => o
  | None => []
  end.

Definition hexValue (c : ascii) : nat :=
  let n := nat_of_ascii c in
  if Nat.leb 97 n then n - 87 else n - 48.

(** Reads back one character written by [quoteChar] from the head of a
    text; a text that starts with a quote holds none. *)
Definition unquoteChar (s : string) : option (ascii * string) :=
  match s with
  | EmptyString => None
  | String c r =>
      if Ascii.eqb c backslash then
        match r with
        | EmptyString => None
        | String e r' =>
            if Ascii.eqb e "b" then Some (ascii_of_nat 8, r')
            else if Ascii.eqb e "t" then Some (ascii_of_nat 9, r')
            else if Ascii.eqb e "n" then Some (ascii_of_nat 10, r')
            else if Ascii.eqb e "f" then Some (ascii_of_nat 12, r')
            else if Ascii.eqb e "r" then Some (ascii_of_nat 13, r')
            else if Ascii.eqb e dquote then Some (dquote, r')
            else if Ascii.eqb e backslash then Some (backslash, r')
            else
              match r' with
              | String _ (String _ (String h1 (String h2 r''))) =>
                  Some (ascii_of_nat (16 * hexValue h1 + hexValue h2), r'')
              | _ => None
              end
        end
      else if Ascii.eqb c dquote then None
      else Some (c, r)
  end.

(** The text [hashRulerRule] passes to [hash]: the function with the
    identity as [hash]. *)
Definition hashedText (localeCompare : string -> string -> Z)
    (rule : RulerRuleDTO) : result string :=
  hashRulerRule string (fun text => text) localeCompare rule.

(** Two optional mappings with the same entries, the first with unique
    names that the comparator tells apart. *)
Definition same_entries (comparefn : string -> string -> Z)
    (item1 item2 : option Labels) : Prop :=
  NoDup (map fst (labels_or_empty item1)) /\
  distinguishes comparefn (labels_or_empty item1) /\
  Permutation (labels_or_empty item1) (labels_or_empty item2).

(** ** Further sample inputs *)

(** [highLoadAlertingRule] with its labels inserted in the other order. *)
Definition highLoadAlertingRuleReordered : RulerRuleDTO := {|
  record := None;
  alert := Some "HighLoad";
  expr := Some "load > 4";
  labels := Some [("team", "infra"); ("severity", "page")];
  annotations := Some [("summary", "load is high")];
  grafana_alert := None
|}.

(** [cpuRecordingRule] with the properties of the other two kinds added. *)
Definition cpuRecordingRuleWithAlert : RulerRuleDTO := {|
  record := Some "cpu:alert";
  alert := Some "HighLoad";
  expr := Some "up == 0";
  labels := Some [("team", "infra")];
  annotations := Some [("summary", "load is high")];
  grafana_alert := Some {| uid := "abc123" |}
|}.

(** An object with none of the distinguishing properties. *)
Definition shapelessRule : RulerRuleDTO := {|
  record := None;
  alert := None;
  expr := Some "up == 0";
  labels := None;
  annotations := None;
  grafana_alert := None
|}.

Definition cpuRuleWithLocation : RuleWithLocation := {|
  ruleSourceName := "mimir-1";
  namespace := "ns-a";
  group := {| name := "grp-1" |};
  rule := cpuRecordingRule
|}.

Definition teamThenEnvAlert : AlertDTO.Alert :=
  {| AlertDTO.labels := teamThenEnv |}.

(** A text written with apostrophes in place of double quotes. *)
Fixpoint doubleQuoted (s : string) : string :=
  match s with
  | EmptyString => EmptyString
  | String c s' =>
      String (if Ascii.eqb c "'" then dquote else c) (doubleQuoted s')
  end.

(** The rule with another [grafana_alert] property, or without one. *)
Definition with_grafana_alert (block : option GrafanaRuleDefinition)
    (rule : RulerRuleDTO) : RulerRuleDTO := {|
  record := record rule;
  alert := alert rule;
  expr := expr rule;
  labels := labels rule;
  annotations := annotations rule;
  grafana_alert := block
|}.

(** No name of the mapping is an array index. *)
Definition plain_names (item : Labels) : bool :=
  forallb (fun entry => negb (isArrayIndex (fst entry))) item.

(** Two alerts whose labels are named by array indices, inserted in either
    order. *)
Definition twoThenOneAlert : AlertDTO.Alert :=
  {| AlertDTO.labels := [("2", "b"); ("1", "a")] |}.
Definition oneThenTwoAlert : AlertDTO.Alert :=
  {| AlertDTO.labels := [("1", "a"); ("2", "b")] |}.

(** A rule with the [grafana_alert] block and a [record] property. *)
Definition grafanaRecordingRule : RulerRuleDTO := {|
  record := Some "cpu:alert";
  alert := None;
  expr := Some "up == 0";
  labels := Some [("team", "infra")];
  annotations := None;
  grafana_alert := Some {| uid := "abc123" |}
|}.

(** * Properties *)

(** ** Scanning and replacing *)

#[local] Arguments Ascii.eqb : simpl never.

Lemma startsWith_cons (a b : ascii) (pat s : string) :
  startsWith (String a pat) (String b s) = Ascii.eqb a b && startsWith pat s.
Proof. reflexivity. Qed.

Lemma startsWith_app (pat rest : string) : startsWith pat (pat ++ rest) = true.
Proof.
  induction pat as [|a pat IH]; simpl.
  - reflexivity.
  - now rewrite Ascii.eqb_refl, IH.
Qed.

Lemma startsWith_inv (pat s : string) :
  startsWith pat s = true -> exists rest, s = pat ++ rest.
Proof.
  revert s; induction pat as [|a pat IH]; intros s H.
  - now exists s.
  - destruct s as [|b s]; simpl in H; [discriminate|].
    apply andb_true_iff in H as [Hab Hs].
    apply Ascii.eqb_eq in Hab; subst b.
    destruct (IH _ Hs) as [rest ->].
    now exists rest.
Qed.

Lemma includes_cons (pat : string) (c : ascii) (s : string) :
  includes pat (String c s) = startsWith pat (String c s) || includes pat s.
Proof. reflexivity. Qed.

Lemma includes_tail (pat : string) (c : ascii) (s : string) :
  includes pat (String c s) = false ->
  startsWith pat (String c s) = false /\ includes pat s = false.
Proof.
  simpl includes. intros H. now apply orb_false_iff in H.
Qed.

Lemma replace_from_skip (pat rep passed rest : string) :
  replace_from pat rep (String.length passed) (passed ++ rest)
  = replace_from pat rep 0 rest.
Proof.
  induction passed as [|c passed IH]; simpl.
  - now destruct rest.
  - exact IH.
Qed.

Lemma replaceAll_match (a : ascii) (pat rep rest : string) :
  replaceAll (String a pat) rep (String a pat ++ rest)
  = rep ++ replaceAll (String a pat) rep rest.
Proof.
  unfold replaceAll.
  change (String a pat ++ rest) with (String a (pat ++ rest)).
  cbn [replace_from].
  change (String a (pat ++ rest)) with (String a pat ++ rest).
  rewrite startsWith_app.
  replace (String.length (String a pat) - 1) with (String.length pat)
    by (cbn [String.length]; lia).
  now rewrite replace_from_skip.
Qed.

Lemma replaceAll_no_match (pat rep : string) (c : ascii) (s : string) :
  startsWith pat (String c s) = false ->
  replaceAll pat rep (String c s) = String c (replaceAll pat rep s).
Proof.
  unfold replaceAll. cbn [replace_from]. now intros ->.
Qed.

(** ** Escaping *)

Lemma escapeDollars_dollar (s : string) :
  escapeDollars (String "$" s) = "_DOLLAR_" ++ escapeDollars s.
Proof. exact (replaceAll_match "$" EmptyString "_DOLLAR_" s). Qed.

Lemma escapeDollars_other (c : ascii) (s : string) :
  c <> "$"%char -> escapeDollars (String c s) = String c (escapeDollars s).
Proof.
  intros Hc. apply replaceAll_no_match. simpl.
  destruct (Ascii.eqb "$" c) eqn:E; [|reflexivity].
  apply Ascii.eqb_eq in E. congruence.
Qed.

Lemma unesacapeDollars_placeholder (s : string) :
  unesacapeDollars ("_DOLLAR_" ++ s) = String "$" (unesacapeDollars s).
Proof. exact (replaceAll_match "_" "DOLLAR_" "$" s). Qed.

(** The escaped text holds no delimiter. *)
Lemma escapeDollars_no_dollar (s : string) :
  includes "$" (escapeDollars s) = false.
Proof.
  induction s as [|c s IH]; [reflexivity|].
  destruct (Ascii.eqb_spec c "$") as [->|Hc].
  - rewrite escapeDollars_dollar. simpl. exact IH.
  - rewrite escapeDollars_other by assumption.
    simpl. rewrite IH.
    destruct (Ascii.eqb_spec "$"%char c); [congruence|reflexivity].
Qed.

(** A character other than [_] at the head of an escaped text is a
    character of the field. *)
Lemma escaped_head (a : ascii) (pat s : string) :
  a <> "_"%char ->
  startsWith (String a pat) (escapeDollars s) = true ->
  exists s', s = String a s' /\ startsWith pat (escapeDollars s') = true.
Proof.
  intros Ha H. destruct s as [|c s]; [discriminate|].
  destruct (Ascii.eqb_spec c "$") as [->|Hc].
  - rewrite escapeDollars_dollar in H. simpl in H.
    apply andb_true_iff in H as [E _].
    apply Ascii.eqb_eq in E. congruence.
  - rewrite escapeDollars_other in H by assumption. simpl in H.
    apply andb_true_iff in H as [E H].
    apply Ascii.eqb_eq in E; subst c.
    now exists s.
Qed.

(** An underscore at the head of an escaped text is one of the field or the
    start of a placeholder. *)
Lemma escaped_underscore (s : string) :
  startsWith "_" (escapeDollars s) = true ->
  exists s', s = String "_" s' \/ s = String "$" s'.
Proof.
  intros H. destruct s as [|c s]; [discriminate|].
  destruct (Ascii.eqb_spec c "$") as [->|Hc].
  - exists s. now right.
  - rewrite escapeDollars_other in H by assumption. simpl in H.
    apply andb_true_iff in H as [E _].
    apply Ascii.eqb_eq in E; subst c.
    exists s. now left.
Qed.

Lemma no_spurious_placeholder (c : ascii) (s : string) :
  c <> "$"%char ->
  startsWith "_DOLLAR_" (String c s) = false ->
  startsWith "_DOLLAR$" (String c s) = false ->
  startsWith "_DOLLAR_" (String c (escapeDollars s)) = false.
Proof.
  intros Hc H1 H2.
  destruct (startsWith "_DOLLAR_" (String c (escapeDollars s))) eqn:E;
    [exfalso|reflexivity].
  rewrite startsWith_cons in E.
  apply andb_true_iff in E as [Ec E].
  apply Ascii.eqb_eq in Ec; subst c.
  apply escaped_head in E as [s1 [-> E]]; [|discriminate].
  apply escaped_head in E as [s2 [-> E]]; [|discriminate].
  apply escaped_head in E as [s3 [-> E]]; [|discriminate].
  apply escaped_head in E as [s4 [-> E]]; [|discriminate].
  apply escaped_head in E as [s5 [-> E]]; [|discriminate].
  apply escaped_head in E as [s6 [-> E]]; [|discriminate].
  apply escaped_underscore in E as [s7 [-> | ->]].
  - cbv in H1. discriminate.
  - cbv in H2. discriminate.
Qed.

Lemma unescape_escape (field : string) :
  placeholder_free field = true ->
  unesacapeDollars (escapeDollars field) = field.
Proof.
  unfold placeholder_free. intros H.
  apply andb_true_iff in H as [H1 H2].
  apply negb_true_iff in H1, H2.
  induction field as [|c s IH]; [reflexivity|].
  apply includes_tail in H1 as [H1 H1'], H2 as [H2 H2'].
  destruct (Ascii.eqb_spec c "$") as [->|Hc].
  - rewrite escapeDollars_dollar, unesacapeDollars_placeholder.
    now rewrite IH.
  - rewrite escapeDollars_other by assumption.
    unfold unesacapeDollars.
    rewrite replaceAll_no_match by now apply no_spurious_placeholder.
    fold (unesacapeDollars (escapeDollars s)).
    now rewrite IH.
Qed.

(** A field that starts with one of the two patterns is escaped to a text
    that starts with the placeholder. *)
Lemma escaped_spurious (s : string) :
  startsWith "_DOLLAR_" s = true \/ startsWith "_DOLLAR$" s = true ->
  exists rest, escapeDollars s = "_DOLLAR_" ++ rest.
Proof.
  intros [H | H]; apply startsWith_inv in H as [rest ->];
    cbn [String.append];
    rewrite !escapeDollars_other by discriminate.
  - now exists (escapeDollars rest).
  - rewrite escapeDollars_dollar. now exists ("DOLLAR_" ++ escapeDollars rest).
Qed.

(** The condition of [unescape_escape] is exact. *)
Lemma unescape_escape_changes (field : string) :
  placeholder_free field = false ->
  unesacapeDollars (escapeDollars field) <> field.
Proof.
  unfold placeholder_free.
  induction field as [|c s IH]; [discriminate|].
  intros H.
  destruct (startsWith "_DOLLAR_" (String c s)) eqn:H1;
    [|destruct (startsWith "_DOLLAR$" (String c s)) eqn:H2].
  - destruct (escaped_spurious (String c s)) as [rest E]; [now left|].
    rewrite E, unesacapeDollars_placeholder.
    apply startsWith_inv in H1 as [tail H1]. injection H1 as -> _.
    discriminate.
  - destruct (escaped_spurious (String c s)) as [rest E]; [now right|].
    rewrite E, unesacapeDollars_placeholder.
    apply startsWith_inv in H2 as [tail H2]. injection H2 as -> _.
    discriminate.
  - rewrite !includes_cons, H1, H2 in H. cbn [orb] in H.
    specialize (IH H).
    destruct (Ascii.eqb_spec c "$") as [->|Hc].
    + rewrite escapeDollars_dollar, unesacapeDollars_placeholder. congruence.
    + rewrite escapeDollars_other by assumption.
      unfold unesacapeDollars.
      rewrite replaceAll_no_match by now apply no_spurious_placeholder.
      fold (unesacapeDollars (escapeDollars s)). congruence.
Qed.

(** ** Splitting *)

Lemma split_not_nil (sep : ascii) (s : string) : split sep s <> [].
Proof.
  induction s as [|c s IH]; simpl; [discriminate|].
  destruct (Ascii.eqb c sep); [discriminate|].
  destruct (split sep s); [contradiction|discriminate].
Qed.

Lemma split_no_delimiter (s : string) :
  includes "$" s = false -> split "$" s = [s].
Proof.
  induction s as [|c s IH]; [reflexivity|].
  intros H. apply includes_tail in H as [Hc Hs].
  simpl in Hc. rewrite andb_true_r in Hc.
  rewrite Ascii.eqb_sym in Hc.
  simpl. rewrite Hc. now rewrite IH.
Qed.

Lemma split_delimited (part rest : string) :
  includes "$" part = false ->
  split "$" (part ++ String "$" rest) = part :: split "$" rest.
Proof.
  induction part as [|c part IH]; [reflexivity|].
  intros H. apply includes_tail in H as [Hc Hs].
  simpl in Hc. rewrite andb_true_r in Hc.
  rewrite Ascii.eqb_sym in Hc.
  simpl. rewrite Hc. now rewrite IH.
Qed.

Lemma split_length_delimiter (s : string) :
  includes "$" s = true -> List.length (split "$" s) <> 1.
Proof.
  induction s as [|c s IH]; [discriminate|].
  simpl includes. rewrite andb_true_r, Ascii.eqb_sym. simpl split.
  pose proof (split_not_nil "$" s) as Hne.
  destruct (Ascii.eqb c "$") eqn:E; simpl.
  - intros _. destruct (split "$" s); [contradiction|simpl; lia].
  - intros H. specialize (IH H).
    destruct (split "$" s); [contradiction|exact IH].
Qed.

Lemma split_escaped_fields (a b c d : string) :
  split "$" (join "$" (map escapeDollars [a; b; c; d]))
  = map escapeDollars [a; b; c; d].
Proof.
  cbn [map join].
  change (String.append "$") with (String "$").
  rewrite !split_delimited by apply escapeDollars_no_dollar.
  now rewrite split_no_delimiter by apply escapeDollars_no_dollar.
Qed.

(** ** The identifier codec *)

Section CodecProperties.

Variable number : Type.
Variable String_number : number -> string.
Variable Number : string -> number.

Local Abbreviation stringify := (stringifyRuleIdentifier number String_number).
Local Abbreviation parse := (parseRuleIdentifier number Number).

(** Parsing what [stringifyRuleIdentifier] wrote for a cloud rule: always
    four parts, each escaped and unescaped once. *)
Lemma parse_stringify_cloud (ruleSourceName namespace groupName : string)
    (ruleHash : number) :
  parse (stringify
           (CloudRuleIdentifier ruleSourceName namespace groupName ruleHash))
  = Ok (CloudRuleIdentifier
          (unesacapeDollars (escapeDollars ruleSourceName))
          (unesacapeDollars (escapeDollars namespace))
          (unesacapeDollars (escapeDollars groupName))
          (Number (unesacapeDollars (escapeDollars (String_number ruleHash))))).
Proof.
  unfold parseRuleIdentifier, stringifyRuleIdentifier.
  rewrite split_escaped_fields. reflexivity.
Qed.

(** C1, as amended: [parseRuleIdentifier (stringifyRuleIdentifier id)]
    returns [id] for every Grafana identifier whose uid holds no [$], and
    for every cloud identifier whose three location fields and rendered
    hash hold neither [_DOLLAR_] nor [_DOLLAR$] and whose hash is given
    back by [Number (String hash)]. *)
Theorem parse_stringify_round_trip (id : RuleIdentifier number) :
  round_trippable String_number Number id ->
  parse (stringify id) = Ok id.
Proof.
  destruct id as [uid | ruleSourceName namespace groupName ruleHash].
  - cbn [round_trippable stringifyRuleIdentifier]. intros Huid.
    unfold parseRuleIdentifier.
    now rewrite split_no_delimiter.
  - intros (Hs & Hn & Hg & Hh & Hnum).
    rewrite parse_stringify_cloud.
    now rewrite !unescape_escape, Hnum.
Qed.

(** The condition of the round trip is exact on the four strings: an
    identifier that comes back has a uid without [$], or location fields
    that hold none of the two patterns. *)
Lemma parse_stringify_round_trip_only (id : RuleIdentifier number) :
  parse (stringify id) = Ok id ->
  match id with
  | GrafanaRuleIdentifier uid => includes "$" uid = false
  | CloudRuleIdentifier ruleSourceName namespace groupName _ =>
      placeholder_free ruleSourceName = true /\
      placeholder_free namespace = true /\
      placeholder_free groupName = true
  end.
Proof.
  destruct id as [uid | ruleSourceName namespace groupName ruleHash].
  - cbn [stringifyRuleIdentifier]. unfold parseRuleIdentifier.
    destruct (includes "$" uid) eqn:E; [|reflexivity].
    apply split_length_delimiter, Nat.eqb_neq in E. rewrite E.
    destruct (Nat.eqb (List.length (split "$" uid)) 4); discriminate.
  - rewrite parse_stringify_cloud. intros H.
    injection H as Hs Hn Hg _.
    repeat split.
    + destruct (placeholder_free ruleSourceName) eqn:E; [reflexivity|].
      now apply unescape_escape_changes in E.
    + destruct (placeholder_free namespace) eqn:E; [reflexivity|].
      now apply unescape_escape_changes in E.
    + destruct (placeholder_free groupName) eqn:E; [reflexivity|].
      now apply unescape_escape_changes in E.
Qed.

(** C4: [parseRuleIdentifier] splits on [$]; one part gives the Grafana
    identifier holding the input, four parts give the cloud identifier of
    the unescaped parts with the fourth converted by [Number], and any
    other number of parts throws an error whose message ends with the
    input.  Unescaping is the inverse of the escaping of
    [stringifyRuleIdentifier]: four escaped fields that hold neither
    [_DOLLAR_] nor [_DOLLAR$], joined by [$], are parsed to these fields. *)
Theorem parseRuleIdentifier_by_parts (location : string) :
  (List.length (split "$" location) = 1 ->
   parse location = Ok (GrafanaRuleIdentifier location)) /\
  (forall a b c d, split "$" location = [a; b; c; d] ->
   parse location
   = Ok (CloudRuleIdentifier (unesacapeDollars a) (unesacapeDollars b)
           (unesacapeDollars c) (Number (unesacapeDollars d)))) /\
  (List.length (split "$" location) <> 1 ->
   List.length (split "$" location) <> 4 ->
   parse location
   = Throw ("Failed to parse rule location: " ++ location)) /\
  (forall a b c d,
   placeholder_free a = true -> placeholder_free b = true ->
   placeholder_free c = true -> placeholder_free d = true ->
   location = join "$" (map escapeDollars [a; b; c; d]) ->
   parse location = Ok (CloudRuleIdentifier a b c (Number d))).
Proof.
  unfold parseRuleIdentifier. repeat split.
  - now intros ->.
  - now intros a b c d ->.
  - intros H1 H4.
    apply Nat.eqb_neq in H1, H4. now rewrite H1, H4.
  - intros a b c d Ha Hb Hc Hd ->.
    rewrite split_escaped_fields. cbn [map List.length Nat.eqb nth].
    now rewrite !unescape_escape.
Qed.

(** C8: [escapeDollars] leaves the placeholder [_DOLLAR_] as it is, and a
    cloud identifier whose source name is the placeholder does not come
    back from [parseRuleIdentifier (stringifyRuleIdentifier id)]. *)
Theorem placeholder_breaks_round_trip (ruleHash : number) :
  exists ruleSourceName namespace groupName : string,
    includes "_DOLLAR_" ruleSourceName = true /\
    escapeDollars ruleSourceName = ruleSourceName /\
    parse (stringify
             (CloudRuleIdentifier ruleSourceName namespace groupName ruleHash))
    <> Ok (CloudRuleIdentifier ruleSourceName namespace groupName ruleHash).
Proof.
  exists "_DOLLAR_", "ns", "grp". repeat split.
  rewrite parse_stringify_cloud.
  intros H. injection H as H _. vm_compute in H. discriminate.
Qed.

(** C10: on an input of four parts [parseRuleIdentifier] does not throw,
    whatever the fourth part is: it returns the cloud identifier whose
    hash is [Number] of the unescaped fourth part, NaN included. *)
Theorem parseRuleIdentifier_four_parts_accepts (location : string) :
  List.length (split "$" location) = 4 ->
  parse location
  = Ok (CloudRuleIdentifier
          (unesacapeDollars (nth 0 (split "$" location) EmptyString))
          (unesacapeDollars (nth 1 (split "$" location) EmptyString))
          (unesacapeDollars (nth 2 (split "$" location) EmptyString))
          (Number (unesacapeDollars (nth 3 (split "$" location) EmptyString)))).
Proof.
  intros H. unfold parseRuleIdentifier. rewrite H. cbn [Nat.eqb].
  now rewrite <- !map_nth with (f := unesacapeDollars).
Qed.

End CodecProperties.

(** ** Sorting with a comparator *)

Section SortProperties.

Context {A : Type}.
Variable comparefn : A -> A -> Z.

Local Abbreviation le := (fun a b : A => (comparefn a b <= 0)%Z).

Hypothesis le_total : forall a b, (0 < comparefn a b)%Z -> le b a.
Hypothesis le_trans : forall a b c, le a b -> le b c -> le a c.

Lemma sort_insert_permutation (x : A) (l : list A) :
  Permutation (sort_insert comparefn x l) (x :: l).
Proof.
  induction l as [|y l IH]; simpl.
  - apply Permutation_refl.
  - destruct (0 <? comparefn x y)%Z.
    + rewrite IH. apply perm_swap.
    + apply Permutation_refl.
Qed.

Lemma sort_permutation (l : list A) : Permutation (sort comparefn l) l.
Proof.
  induction l as [|x l IH]; simpl.
  - apply perm_nil.
  - rewrite sort_insert_permutation. now apply perm_skip.
Qed.

Lemma sort_insert_sorted (x : A) (l : list A) :
  StronglySorted le l -> StronglySorted le (sort_insert comparefn x l).
Proof.
  induction 1 as [|y l Hsorted IH Hall]; simpl.
  - constructor; constructor.
  - destruct (Z.ltb_spec 0 (comparefn x y)) as [Hgt | Hle].
    + constructor; [exact IH|].
      eapply Permutation_Forall.
      * symmetry. apply sort_insert_permutation.
      * constructor; [now apply le_total | exact Hall].
    + constructor; [now constructor|].
      constructor; [exact Hle|].
      apply Forall_impl with (2 := Hall).
      intros b Hb. now apply le_trans with y.
Qed.

Lemma sort_sorted (l : list A) : StronglySorted le (sort comparefn l).
Proof.
  induction l as [|x l IH]; simpl.
  - constructor.
  - now apply sort_insert_sorted.
Qed.

(** Two sorted arrangements of the same items coincide when the comparator
    rates no two distinct items among them as equal. *)
Lemma sorted_permutation_unique (l1 l2 : list A) :
  (forall a b, In a l1 -> In b l1 -> le a b -> le b a -> a = b) ->
  StronglySorted le l1 -> StronglySorted le l2 -> Permutation l1 l2 ->
  l1 = l2.
Proof.
  revert l2. induction l1 as [|a l1 IH]; intros l2 Hanti S1 S2 P.
  - apply Permutation_nil in P. now subst.
  - destruct l2 as [|b l2].
    { apply Permutation_sym, Permutation_nil in P. discriminate. }
    apply StronglySorted_inv in S1 as [S1 F1], S2 as [S2 F2].
    rewrite Forall_forall in F1, F2.
    assert (Hab : a = b).
    { assert (Ha : In a (b :: l2)) by (eapply Permutation_in; [exact P | now left]).
      assert (Hb : In b (a :: l1))
        by (eapply Permutation_in; [symmetry; exact P | now left]).
      destruct Ha as [-> | Ha]; [reflexivity|].
      destruct Hb as [-> | Hb]; [reflexivity|].
      apply Hanti; [now left | now right | now apply F1 | now apply F2]. }
    subst b. f_equal.
    apply IH; try assumption.
    + intros x y Hx Hy. apply Hanti; now right.
    + now apply Permutation_cons_inv in P.
Qed.

Lemma sort_permutation_invariant (l1 l2 : list A) :
  (forall a b, In a l1 -> In b l1 -> le a b -> le b a -> a = b) ->
  Permutation l1 l2 ->
  sort comparefn l1 = sort comparefn l2.
Proof.
  intros Hanti P.
  apply sorted_permutation_unique; try apply sort_sorted.
  - intros a b Ha Hb. apply Hanti.
    + eapply Permutation_in; [apply sort_permutation | exact Ha].
    + eapply Permutation_in; [apply sort_permutation | exact Hb].
  - rewrite sort_permutation, P. symmetry. apply sort_permutation.
Qed.

End SortProperties.

Lemma unique_names_entry (item : Labels) (a b : string * string) :
  NoDup (map fst item) -> In a item -> In b item -> fst a = fst b -> a = b.
Proof.
  induction item as [|e item IH]; [contradiction|].
  cbn [map]. intros Hnd Ha Hb Hab.
  apply NoDup_cons_iff in Hnd as [Hfresh Hnd].
  destruct Ha as [-> | Ha], Hb as [-> | Hb].
  - reflexivity.
  - exfalso. apply Hfresh. rewrite Hab. now apply in_map.
  - exfalso. apply Hfresh. rewrite <- Hab. now apply in_map.
  - now apply IH.
Qed.

(** ** The order of enumeration *)

Lemma filter_partition_permutation {A : Type} (f : A -> bool) (l : list A) :
  Permutation (filter f l ++ filter (fun x => negb (f x)) l) l.
Proof.
  induction l as [|x l IH]; simpl; [apply perm_nil|].
  destruct (f x); simpl.
  - now apply perm_skip.
  - rewrite <- Permutation_middle. now apply perm_skip.
Qed.

(** [Object.entries] yields every property once. *)
Lemma Object_entries_permutation (item : Labels) :
  Permutation (Object_entries item) item.
Proof.
  unfold Object_entries.
  rewrite sort_permutation.
  apply filter_partition_permutation.
Qed.

(** Properties whose names are no array indices keep the order of their
    insertion. *)
Lemma Object_entries_plain (item : Labels) :
  forallb (fun entry => negb (isArrayIndex (fst entry))) item = true ->
  Object_entries item = item.
Proof.
  unfold Object_entries. intros H.
  induction item as [|e item IH]; [reflexivity|].
  cbn [forallb] in H. apply andb_true_iff in H as [He H].
  specialize (IH H). cbn [filter]. rewrite He.
  apply negb_true_iff in He. rewrite He.
  destruct (filter (fun entry => isArrayIndex (fst entry)) item) eqn:E.
  - cbn in *. now rewrite IH.
  - exfalso.
    assert (Hin : In p (filter (fun entry => isArrayIndex (fst entry)) item))
      by (rewrite E; now left).
    apply filter_In in Hin as [Hin Hp].
    rewrite forallb_forall in H. apply H in Hin.
    rewrite Hp in Hin. discriminate.
Qed.

(** ** Classifiers *)

(** C6, as amended: each classifier tests the presence of one property and
    nothing else, [isGrafanaRulerRule] that of [grafana_alert],
    [isRecordingRulerRule] that of [record] and [isAlertingRulerRule] that
    of [alert]; so the number of classifiers that accept a rule is the
    number of these properties it has, a rule with at most one of them is
    accepted by at most one classifier, and a rule with several is accepted
    by the classifier of each. *)
Theorem classifiers_count_fields (rule : RulerRuleDTO) :
  (isGrafanaRulerRule (Some rule) = true <->
   exists definition, grafana_alert rule = Some definition) /\
  (isRecordingRulerRule rule = true <->
   exists recordName, record rule = Some recordName) /\
  (isAlertingRulerRule rule = true <->
   exists alertName, alert rule = Some alertName) /\
  classifiers_holding rule = distinguishing_fields rule /\
  (distinguishing_fields rule <= 1 -> classifiers_holding rule <= 1).
Proof.
  assert (H : classifiers_holding rule = distinguishing_fields rule).
  { unfold classifiers_holding, distinguishing_fields, isGrafanaRulerRule,
      isRecordingRulerRule, isAlertingRulerRule.
    destruct (grafana_alert rule), (record rule), (alert rule); reflexivity. }
  unfold isGrafanaRulerRule, isRecordingRulerRule, isAlertingRulerRule.
  repeat split; try (now rewrite H); try exact H.
  - destruct (grafana_alert rule) as [x|]; [now exists x | discriminate].
  - intros [x ->]. reflexivity.
  - destruct (record rule) as [x|]; [now exists x | discriminate].
  - intros [x ->]. reflexivity.
  - destruct (alert rule) as [x|]; [now exists x | discriminate].
  - intros [x ->]. reflexivity.
Qed.

(** C9: [isGrafanaRulerRule] returns [false] on [undefined], and on a rule
    it returns [true] exactly when the rule has the [grafana_alert] block;
    it returns on every input. *)
Theorem isGrafanaRulerRule_total :
  isGrafanaRulerRule None = false /\
  forall rule : RulerRuleDTO,
    isGrafanaRulerRule (Some rule) = true <->
    exists definition, grafana_alert rule = Some definition.
Proof.
  split; [reflexivity|].
  intros rule. unfold isGrafanaRulerRule.
  destruct (grafana_alert rule) as [definition|]; simpl; split.
  - intros _. now exists definition.
  - reflexivity.
  - discriminate.
  - intros [definition H]. discriminate.
Qed.

(** ** Fingerprints and derived identifiers *)

Lemma JSON_stringify_strings (fields : list string) :
  JSON_stringify (JArray (map JString fields)) = serialized_tuple fields.
Proof.
  unfold serialized_tuple. cbn [JSON_stringify].
  now rewrite map_map.
Qed.

Section FingerprintProperties.

Variable number : Type.
Variable hash : string -> number.
Variable localeCompare : string -> string -> Z.

Local Abbreviation canonicalize := (hashLabelsOrAnnotations localeCompare).
Local Abbreviation fingerprint := (hashRulerRule number hash localeCompare).
Local Abbreviation derive := (getRuleIdentifier number hash localeCompare).

(** C2, as amended: the hash of a rule with a [record] property and an
    expression, whatever else the rule has, is [hash] of the serialized
    array of the record name, the expression and the canonical labels; the
    hash of a rule with an [alert] property, no [record] property and an
    expression is [hash] of the serialized array of the alert name, the
    expression, the canonical annotations and the canonical labels, in
    these orders. *)
Theorem hashRulerRule_tuples (rule : RulerRuleDTO) (expression : string) :
  expr rule = Some expression ->
  (forall recordName, record rule = Some recordName ->
   fingerprint rule
   = Ok (hash (serialized_tuple
                 [recordName; expression; canonicalize (labels rule)]))) /\
  (forall alertName, record rule = None -> alert rule = Some alertName ->
   fingerprint rule
   = Ok (hash (serialized_tuple
                 [alertName; expression; canonicalize (annotations rule);
                  canonicalize (labels rule)]))).
Proof.
  intros He. unfold hashRulerRule, isRecordingRulerRule, isAlertingRulerRule.
  split.
  - intros recordName Hr. rewrite Hr, He. cbn [has_property json_of_property].
    now rewrite <- JSON_stringify_strings.
  - intros alertName Hr Ha. rewrite Hr, Ha, He.
    cbn [has_property json_of_property].
    now rewrite <- JSON_stringify_strings.
Qed.

(** C5, as amended: [hashRulerRule] throws on every rule that has neither a
    [record] nor an [alert] property, a rule with the [grafana_alert] block
    and without the two included; it returns a hash exactly for the rules
    with a [record] or an [alert] property; and the [grafana_alert] block
    does not enter its result. *)
Theorem hashRulerRule_unsupported (rule : RulerRuleDTO) :
  (isRecordingRulerRule rule = false -> isAlertingRulerRule rule = false ->
   fingerprint rule
   = Throw "only recording and alerting ruler rules can be hashed") /\
  ((exists h, fingerprint rule = Ok h) <->
   isRecordingRulerRule rule = true \/ isAlertingRulerRule rule = true) /\
  (forall block, fingerprint (with_grafana_alert block rule) = fingerprint rule).
Proof.
  unfold hashRulerRule. repeat split.
  - now intros -> ->.
  - intros [h H]. destruct (isRecordingRulerRule rule); [now left|].
    destruct (isAlertingRulerRule rule); [now right | discriminate].
  - intros [H | H].
    + rewrite H. eexists. reflexivity.
    + rewrite H. destruct (isRecordingRulerRule rule); eexists; reflexivity.
Qed.

(** C7: [getRuleIdentifier] returns the Grafana identifier of the embedded
    uid when the rule has the [grafana_alert] block; otherwise it returns
    the cloud identifier of the three given location fields and the hash of
    the rule, and throws when [hashRulerRule] throws. *)
Theorem getRuleIdentifier_cases (ruleSourceName namespace groupName : string)
    (rule : RulerRuleDTO) :
  (forall definition, grafana_alert rule = Some definition ->
   derive ruleSourceName namespace groupName rule
   = Ok (GrafanaRuleIdentifier (uid definition))) /\
  (isGrafanaRulerRule (Some rule) = false ->
   (forall h, fingerprint rule = Ok h ->
    derive ruleSourceName namespace groupName rule
    = Ok (CloudRuleIdentifier ruleSourceName namespace groupName h)) /\
   (forall message, fingerprint rule = Throw message ->
    derive ruleSourceName namespace groupName rule = Throw message)).
Proof.
  unfold getRuleIdentifier, isGrafanaRulerRule. split.
  - now intros definition ->.
  - intros ->. split.
    + now intros h ->.
    + now intros message ->.
Qed.

(** C3, as amended: when [localeCompare] is a consistent comparator that
    rates no two distinct names of the mapping as equal, two mappings with
    the same entries in different orders have the same canonical string;
    and [undefined] has the canonical string of the empty mapping. *)
Theorem canonical_order_independent (m1 m2 : Labels) :
  ConsistentComparator localeCompare ->
  NoDup (map fst m1) ->
  distinguishes localeCompare m1 ->
  Permutation m1 m2 ->
  canonicalize (Some m1) = canonicalize (Some m2) /\
  canonicalize None = canonicalize (Some []).
Proof.
  intros [Hflip Htrans] Hnd Hdist P.
  split; [|reflexivity].
  unfold hashLabelsOrAnnotations.
  do 3 f_equal.
  apply sort_permutation_invariant;
    [| | |now rewrite !Object_entries_permutation].
  - intros a b Hab. apply Z.lt_le_incl. now apply Hflip.
  - intros a b c. apply Htrans.
  - intros a b Ha Hb Hab Hba.
    apply (Permutation_in _ (Object_entries_permutation m1)) in Ha, Hb.
    apply (unique_names_entry m1); try assumption.
    apply Hdist; try now apply in_map.
    destruct (Z.eq_dec (localeCompare (fst a) (fst b)) 0) as [E | E];
      [exact E|].
    assert (Hlt : (localeCompare (fst a) (fst b) < 0)%Z) by lia.
    apply Hflip in Hlt. lia.
Qed.

End FingerprintProperties.

(** ** The two comparators *)

Lemma string_compare_trans (a b c : string) :
  String.compare a b <> Gt -> String.compare b c <> Gt ->
  String.compare a c <> Gt.
Proof.
  revert b c. induction a as [|x a IH]; intros [|y b] [|z c]; simpl;
    try congruence.
  unfold Ascii.compare.
  destruct (N.compare_spec (N_of_ascii x) (N_of_ascii y)) as [Exy|Lxy|Gxy];
    destruct (N.compare_spec (N_of_ascii y) (N_of_ascii z)) as [Eyz|Lyz|Gyz];
    destruct (N.compare_spec (N_of_ascii x) (N_of_ascii z)) as [Exz|Lxz|Gxz];
    try congruence; try lia.
  apply IH.
Qed.

Lemma codeUnitCompare_consistent : ConsistentComparator codeUnitCompare.
Proof.
  split.
  - intros a b. unfold codeUnitCompare.
    rewrite (String.compare_antisym a b).
    destruct (String.compare b a); simpl; lia.
  - intros a b c. unfold codeUnitCompare. intros Hab Hbc.
    pose proof (string_compare_trans a b c) as H.
    destruct (String.compare a b), (String.compare b c),
      (String.compare a c); try lia; exfalso; apply H; congruence.
Qed.

Lemma codeUnitCompare_distinguishes (item : Labels) :
  distinguishes codeUnitCompare item.
Proof.
  intros a b _ _. unfold codeUnitCompare.
  destruct (String.compare a b) eqn:E; try discriminate.
  intros _. now apply String.compare_eq_iff.
Qed.

Lemma canonicalCompare_consistent : ConsistentComparator canonicalCompare.
Proof.
  destruct codeUnitCompare_consistent as [Hflip Htrans].
  split; unfold canonicalCompare.
  - intros a b. apply Hflip.
  - intros a b c. apply Htrans.
Qed.

(** * The statements on concrete inputs *)

(** The codec on a source name that holds the delimiter. *)
Lemma parse_stringify_round_trip_witness :
  round_trippable String_int Number_int cortexIdentifier /\
  parseRuleIdentifier IntNumber Number_int
    (stringifyRuleIdentifier IntNumber String_int cortexIdentifier)
  = Ok cortexIdentifier.
Proof.
  assert (H : round_trippable String_int Number_int cortexIdentifier)
    by (vm_compute; repeat split).
  split; [exact H|].
  exact (parse_stringify_round_trip IntNumber String_int Number_int
           cortexIdentifier H).
Defined.

(** C1 as stated fails: a cloud identifier whose source name holds the
    placeholder comes back with a [$] in its place, and a Grafana identifier
    whose uid holds a [$] is not parsed at all. *)
Lemma parse_stringify_round_trip_fails :
  parseRuleIdentifier IntNumber Number_int
    (stringifyRuleIdentifier IntNumber String_int placeholderIdentifier)
  = Ok (CloudRuleIdentifier "a$b" "ns-a" "grp-1" (Int 7)) /\
  parseRuleIdentifier IntNumber Number_int
    (stringifyRuleIdentifier IntNumber String_int placeholderIdentifier)
  <> Ok placeholderIdentifier /\
  parseRuleIdentifier IntNumber Number_int
    (stringifyRuleIdentifier IntNumber String_int dollarUidIdentifier)
  <> Ok dollarUidIdentifier.
Proof.
  split; [reflexivity|].
  split; vm_compute; discriminate.
Qed.

Lemma parseRuleIdentifier_by_parts_witness :
  parseRuleIdentifier IntNumber Number_int "abc123"
  = Ok (GrafanaRuleIdentifier "abc123") /\
  parseRuleIdentifier IntNumber Number_int
    "cortex_DOLLAR_prod$ns_DOLLAR__DOLLAR_a$grp-1$1522229344"
  = Ok (CloudRuleIdentifier "cortex$prod" "ns$$a" "grp-1" (Int 1522229344)) /\
  parseRuleIdentifier IntNumber Number_int "a$b$c"
  = Throw "Failed to parse rule location: a$b$c" /\
  parseRuleIdentifier IntNumber Number_int "a_DOLLAR_b$$c$7"
  = Ok (CloudRuleIdentifier "a$b" "" "c" (Int 7)).
Proof.
  split; [|split; [|split]].
  - apply (proj1 (parseRuleIdentifier_by_parts IntNumber Number_int "abc123")).
    reflexivity.
  - apply (proj1 (proj2 (parseRuleIdentifier_by_parts IntNumber Number_int
                           "cortex_DOLLAR_prod$ns_DOLLAR__DOLLAR_a$grp-1$1522229344"))
             "cortex_DOLLAR_prod" "ns_DOLLAR__DOLLAR_a" "grp-1" "1522229344").
    reflexivity.
  - apply (proj1 (proj2 (proj2 (parseRuleIdentifier_by_parts IntNumber
                                  Number_int "a$b$c"))));
      vm_compute; discriminate.
  - apply (proj2 (proj2 (proj2 (parseRuleIdentifier_by_parts IntNumber
                                  Number_int "a_DOLLAR_b$$c$7")))
             "a$b" "" "c" "7"); reflexivity.
Defined.

Lemma parseRuleIdentifier_four_parts_accepts_witness :
  List.length (split "$" "mimir-1$ns-a$grp-1$not a number") = 4 /\
  parseRuleIdentifier IntNumber Number_int "mimir-1$ns-a$grp-1$not a number"
  = Ok (CloudRuleIdentifier "mimir-1" "ns-a" "grp-1" NaN).
Proof.
  split; [reflexivity|].
  apply (parseRuleIdentifier_four_parts_accepts IntNumber Number_int
           "mimir-1$ns-a$grp-1$not a number").
  reflexivity.
Defined.

Lemma classifiers_count_fields_witness :
  distinguishing_fields cpuRecordingRule <= 1 /\
  classifiers_holding cpuRecordingRule <= 1 /\
  isRecordingRulerRule cpuRecordingRule = true /\
  isAlertingRulerRule highLoadAlertingRule = true /\
  isGrafanaRulerRule (Some grafanaManagedRule) = true.
Proof.
  split; [vm_compute; lia|]. split; [|split; [|split]].
  - apply (proj2 (proj2 (proj2 (proj2
             (classifiers_count_fields cpuRecordingRule))))).
    vm_compute. lia.
  - apply (proj2 (proj1 (proj2 (classifiers_count_fields cpuRecordingRule)))).
    exists "cpu:alert". reflexivity.
  - apply (proj2 (proj1 (proj2 (proj2
             (classifiers_count_fields highLoadAlertingRule))))).
    exists "HighLoad". reflexivity.
  - apply (proj2 (proj1 (classifiers_count_fields grafanaManagedRule))).
    exists {| uid := "abc123" |}. reflexivity.
Defined.

(** C6 as stated fails: an object with both an [alert] and a [record]
    property is accepted by two classifiers. *)
Lemma classifiers_overlap :
  isRecordingRulerRule alertAndRecordRule = true /\
  isAlertingRulerRule alertAndRecordRule = true /\
  ~ classifiers_holding alertAndRecordRule <= 1.
Proof.
  split; [reflexivity|]. split; [reflexivity|].
  vm_compute. lia.
Qed.

Lemma isGrafanaRulerRule_total_witness :
  (exists definition, grafana_alert grafanaManagedRule = Some definition) /\
  isGrafanaRulerRule (Some grafanaManagedRule) = true /\
  isGrafanaRulerRule None = false.
Proof.
  assert (H : exists definition, grafana_alert grafanaManagedRule = Some definition)
    by (eexists; reflexivity).
  split; [exact H|]. split.
  - exact (proj2 (proj2 isGrafanaRulerRule_total grafanaManagedRule) H).
  - exact (proj1 isGrafanaRulerRule_total).
Defined.

Lemma hashRulerRule_tuples_witness :
  hashRulerRule string (fun text => text) codeUnitCompare cpuRecordingRule
  = Ok (doubleQuoted
          "['cpu:alert','up == 0','[[\'team\',\'infra\']]']") /\
  hashRulerRule string (fun text => text) codeUnitCompare highLoadAlertingRule
  = Ok (doubleQuoted
          "['HighLoad','load > 4','[[\'summary\',\'load is high\']]','[[\'severity\',\'page\'],[\'team\',\'infra\']]']") /\
  hashRulerRule IntNumber sampleHash codeUnitCompare cpuRecordingRule
  = Ok (Int 1522229344).
Proof.
  split; [|split].
  - exact (proj1 (hashRulerRule_tuples string (fun text => text)
                    codeUnitCompare cpuRecordingRule "up == 0" eq_refl)
             "cpu:alert" eq_refl).
  - exact (proj2 (hashRulerRule_tuples string (fun text => text)
                    codeUnitCompare highLoadAlertingRule "load > 4" eq_refl)
             "HighLoad" eq_refl eq_refl).
  - exact (proj1 (hashRulerRule_tuples IntNumber sampleHash
                    codeUnitCompare cpuRecordingRule "up == 0" eq_refl)
             "cpu:alert" eq_refl).
Defined.

(** C2 as stated fails: an object with an [alert] and a [record] property
    is accepted by [isAlertingRulerRule], yet the text that is hashed is the
    array of the record name, the expression and the labels, not the array
    of the alert name, the expression, the annotations and the labels. *)
Lemma alerting_shape_hashed_as_recording :
  isAlertingRulerRule alertAndRecordRule = true /\
  hashRulerRule string (fun text => text) codeUnitCompare alertAndRecordRule
  = Ok (doubleQuoted "['cpu:alert','up == 0','[]']") /\
  hashRulerRule string (fun text => text) codeUnitCompare alertAndRecordRule
  <> Ok (serialized_tuple
           ["HighLoad"; "up == 0";
            hashLabelsOrAnnotations codeUnitCompare (annotations alertAndRecordRule);
            hashLabelsOrAnnotations codeUnitCompare (labels alertAndRecordRule)]) /\
  hashRulerRule IntNumber sampleHash codeUnitCompare alertAndRecordRule
  <> Ok (sampleHash
           (serialized_tuple
              ["HighLoad"; "up == 0";
               hashLabelsOrAnnotations codeUnitCompare
                 (annotations alertAndRecordRule);
               hashLabelsOrAnnotations codeUnitCompare
                 (labels alertAndRecordRule)])).
Proof.
  split; [reflexivity|]. split; [reflexivity|].
  split; vm_compute; discriminate.
Qed.

Lemma hashRulerRule_unsupported_witness :
  isRecordingRulerRule grafanaManagedRule = false /\
  isAlertingRulerRule grafanaManagedRule = false /\
  hashRulerRule IntNumber sampleHash codeUnitCompare grafanaManagedRule
  = Throw "only recording and alerting ruler rules can be hashed" /\
  exists h,
    hashRulerRule IntNumber sampleHash codeUnitCompare cpuRecordingRule = Ok h.
Proof.
  split; [reflexivity|]. split; [reflexivity|]. split.
  - apply (proj1 (hashRulerRule_unsupported IntNumber sampleHash codeUnitCompare
                    grafanaManagedRule)); reflexivity.
  - apply (proj2 (proj1 (proj2 (hashRulerRule_unsupported IntNumber sampleHash
                                  codeUnitCompare cpuRecordingRule)))).
    left. reflexivity.
Defined.

(** C5 as stated fails: a rule with the [grafana_alert] block and a [record]
    property is accepted by [isGrafanaRulerRule], and [hashRulerRule]
    returns its hash. *)
Lemma native_shape_hashed :
  isGrafanaRulerRule (Some grafanaRecordingRule) = true /\
  hashRulerRule IntNumber sampleHash codeUnitCompare grafanaRecordingRule
  = Ok (Int 1522229344) /\
  hashRulerRule IntNumber sampleHash codeUnitCompare grafanaRecordingRule
  <> Throw "only recording and alerting ruler rules can be hashed".
Proof.
  split; [reflexivity|]. split; [vm_compute; reflexivity|].
  vm_compute. discriminate.
Qed.

Lemma getRuleIdentifier_cases_witness :
  getRuleIdentifier IntNumber sampleHash codeUnitCompare
    "grafana" "folder" "grp" grafanaManagedRule
  = Ok (GrafanaRuleIdentifier "abc123") /\
  getRuleIdentifier IntNumber sampleHash codeUnitCompare
    "mimir-1" "ns-a" "grp-1" cpuRecordingRule
  = Ok (CloudRuleIdentifier "mimir-1" "ns-a" "grp-1" (Int 1522229344)).
Proof.
  split.
  - apply (proj1 (getRuleIdentifier_cases IntNumber sampleHash codeUnitCompare
                    "grafana" "folder" "grp" grafanaManagedRule)
             {| uid := "abc123" |}).
    reflexivity.
  - apply (proj1 (proj2 (getRuleIdentifier_cases IntNumber sampleHash
                           codeUnitCompare "mimir-1" "ns-a" "grp-1"
                           cpuRecordingRule) eq_refl)).
    vm_compute. reflexivity.
Defined.

Lemma canonical_order_independent_witness :
  Permutation teamThenEnv envThenTeam /\
  hashLabelsOrAnnotations codeUnitCompare (Some teamThenEnv)
  = hashLabelsOrAnnotations codeUnitCompare (Some envThenTeam).
Proof.
  assert (P : Permutation teamThenEnv envThenTeam) by apply perm_swap.
  split; [exact P|].
  apply (canonical_order_independent codeUnitCompare teamThenEnv envThenTeam).
  - exact codeUnitCompare_consistent.
  - repeat constructor; simpl; intuition discriminate.
  - apply codeUnitCompare_distinguishes.
  - exact P.
Defined.

(** C3 as stated fails: under a consistent comparator that rates the ohm
    sign and the capital omega as equal, as canonical equivalence requires,
    a mapping with these two names keeps its order of insertion. *)
Lemma canonical_order_dependent :
  ConsistentComparator canonicalCompare /\
  canonicalCompare ohmSign capitalOmega = 0%Z /\
  Permutation ohmThenOmega omegaThenOhm /\
  NoDup (map fst ohmThenOmega) /\
  hashLabelsOrAnnotations canonicalCompare (Some ohmThenOmega)
  <> hashLabelsOrAnnotations canonicalCompare (Some omegaThenOhm).
Proof.
  split; [exact canonicalCompare_consistent|].
  split; [reflexivity|].
  split; [apply perm_swap|].
  split.
  - repeat constructor; simpl; intuition discriminate.
  - vm_compute. discriminate.
Qed.

(** * Further properties *)

(** ** Texts *)

Lemma string_app_assoc (a b c : string) : (a ++ b) ++ c = a ++ (b ++ c).
Proof.
  induction a as [|x a IH]; simpl; [reflexivity | now rewrite IH].
Qed.

Lemma string_app_inv_head (a b c : string) : a ++ b = a ++ c -> b = c.
Proof.
  induction a as [|x a IH]; simpl; [trivial|].
  intros H. injection H as H. now apply IH.
Qed.

Lemma includes_char_cons (c d : ascii) (s : string) :
  includes (String c EmptyString) (String d s)
  = Ascii.eqb c d || includes (String c EmptyString) s.
Proof.
  rewrite includes_cons, startsWith_cons. simpl startsWith.
  now rewrite andb_true_r.
Qed.

Lemma includes_char_count (c : ascii) (s : string) :
  includes (String c EmptyString) s = false <-> count_char c s = 0.
Proof.
  induction s as [|d s IH]; [now split|].
  rewrite includes_char_cons. cbn [count_char].
  rewrite (Ascii.eqb_sym c d).
  destruct (Ascii.eqb d c); simpl.
  - split; [discriminate | lia].
  - exact IH.
Qed.

Lemma split_length_count (c : ascii) (s : string) :
  List.length (split c s) = S (count_char c s).
Proof.
  induction s as [|d s IH]; [reflexivity|].
  cbn [split count_char].
  pose proof (split_not_nil c s) as Hne.
  destruct (Ascii.eqb d c); simpl.
  - now rewrite IH.
  - destruct (split c s); [contradiction|]. exact IH.
Qed.

Lemma join_split (c : ascii) (s : string) :
  join (String c EmptyString) (split c s) = s.
Proof.
  induction s as [|d s IH]; [reflexivity|].
  cbn [split].
  pose proof (split_not_nil c s) as Hne.
  destruct (Ascii.eqb_spec d c) as [->|Hd].
  - destruct (split c s) as [|p ps]; [contradiction|].
    change (join (String c "") ("" :: p :: ps))
      with (String c (join (String c "") (p :: ps))).
    now rewrite IH.
  - destruct (split c s) as [|p ps]; [contradiction|].
    destruct ps as [|q ps].
    + simpl in *. now rewrite IH.
    + change (join (String c "") (String d p :: q :: ps))
        with (String d (join (String c "") (p :: q :: ps))).
      now rewrite IH.
Qed.

Lemma split_parts_plain (c : ascii) (s : string) :
  Forall (fun part => includes (String c EmptyString) part = false) (split c s).
Proof.
  induction s as [|d s IH]; [repeat constructor|].
  cbn [split].
  pose proof (split_not_nil c s) as Hne.
  destruct (Ascii.eqb d c) eqn:E.
  - constructor; [reflexivity | exact IH].
  - destruct (split c s) as [|p ps]; [contradiction|].
    apply Forall_cons_iff in IH as [Hp Hps].
    constructor; [|exact Hps].
    rewrite includes_char_cons, Hp, Ascii.eqb_sym, E. reflexivity.
Qed.

(** ** Escaping, continued *)

Lemma escapeDollars_plain (s : string) :
  includes "$" s = false -> escapeDollars s = s.
Proof.
  induction s as [|c s IH]; [reflexivity|].
  rewrite includes_char_cons. intros H.
  apply orb_false_iff in H as [Hc Hs].
  rewrite escapeDollars_other.
  - now rewrite IH.
  - intros ->. discriminate.
Qed.

Lemma escapeDollars_idempotent (s : string) :
  escapeDollars (escapeDollars s) = escapeDollars s.
Proof. apply escapeDollars_plain, escapeDollars_no_dollar. Qed.

(** Escaping undoes unescaping on a text without [$]; in the middle of a
    match the scan passes over what is left of it. *)
Lemma escape_replace_from (s : string) (skip : nat) :
  includes "$" s = false ->
  escapeDollars (replace_from "_DOLLAR_" "$" skip s) = dropChars skip s.
Proof.
  revert skip. induction s as [|c s IH]; intros skip H.
  - now destruct skip.
  - pose proof H as Hcs.
    rewrite includes_char_cons in H.
    apply orb_false_iff in H as [Hc Hs].
    destruct skip as [|k]; cbn [replace_from dropChars].
    + destruct (startsWith "_DOLLAR_" (String c s)) eqn:E.
      * change ("$" ++ replace_from "_DOLLAR_" "$" (String.length "_DOLLAR_" - 1) s)
          with (String "$" (replace_from "_DOLLAR_" "$" 7 s)).
        rewrite escapeDollars_dollar, IH by assumption.
        apply startsWith_inv in E as [rest E].
        injection E as -> ->.
        reflexivity.
      * rewrite escapeDollars_other.
        -- now rewrite IH by assumption.
        -- intros ->. discriminate.
    + now apply IH.
Qed.

Lemma escape_unescape (part : string) :
  includes "$" part = false ->
  escapeDollars (unesacapeDollars part) = part.
Proof. intros H. exact (escape_replace_from part 0 H). Qed.

(** ** The codec, continued *)

Section CodecFurther.

Variable number : Type.
Variable String_number : number -> string.
Variable Number : string -> number.

Local Abbreviation stringify := (stringifyRuleIdentifier number String_number).
Local Abbreviation parse := (parseRuleIdentifier number Number).

(** The strings of two different identifiers can coincide: escaping a
    source name that holds a [$] a second time changes nothing, so the name
    and its escaped form are written alike. *)
Theorem stringify_collision (ruleSourceName namespace groupName : string)
    (ruleHash : number) :
  includes "$" ruleSourceName = true ->
  stringify (CloudRuleIdentifier (escapeDollars ruleSourceName) namespace
               groupName ruleHash)
  = stringify (CloudRuleIdentifier ruleSourceName namespace groupName ruleHash)
  /\ CloudRuleIdentifier (escapeDollars ruleSourceName) namespace groupName
       ruleHash
     <> CloudRuleIdentifier ruleSourceName namespace groupName ruleHash.
Proof.
  intros H. split.
  - cbn [stringifyRuleIdentifier map]. now rewrite escapeDollars_idempotent.
  - intros E. injection E as E.
    pose proof (escapeDollars_no_dollar ruleSourceName) as Hno.
    rewrite E in Hno. congruence.
Qed.

(** The string of a cloud identifier holds exactly three [$], whatever the
    fields hold, and it is parsed as a cloud identifier: never as a Grafana
    identifier, never with an error. *)
Theorem stringify_cloud_three_delimiters
    (ruleSourceName namespace groupName : string) (ruleHash : number) :
  count_char "$"
    (stringify (CloudRuleIdentifier ruleSourceName namespace groupName ruleHash))
  = 3 /\
  exists id,
    parse (stringify (CloudRuleIdentifier ruleSourceName namespace groupName
                        ruleHash)) = Ok id /\
    isCloudRuleIdentifier id = true.
Proof.
  split.
  - pose proof (split_length_count "$"
                  (stringify (CloudRuleIdentifier ruleSourceName namespace
                                groupName ruleHash))) as H.
    cbn [stringifyRuleIdentifier] in *.
    rewrite split_escaped_fields in H. simpl List.length in H. lia.
  - rewrite parse_stringify_cloud. eexists. split; reflexivity.
Qed.

(** [parseRuleIdentifier] throws exactly on the inputs whose number of [$]
    is neither 0 nor 3, and what it returns is a Grafana identifier exactly
    when the input holds no [$]. *)
Theorem parse_by_delimiter_count (location : string) :
  ((exists message, parse location = Throw message) <->
   count_char "$" location <> 0 /\ count_char "$" location <> 3) /\
  (forall id, parse location = Ok id ->
   (isGrafanaRuleIdentifier id = true <-> count_char "$" location = 0)).
Proof.
  unfold parseRuleIdentifier.
  rewrite (split_length_count "$" location).
  destruct (count_char "$" location) as [|[|[|[|n]]]]; cbn [Nat.eqb];
    (split; [split|]);
    try (intros [message H]; discriminate);
    try (intros [H0 H3]; congruence);
    try (intros _; split; [discriminate|discriminate]);
    try (intros _; eexists; reflexivity);
    try (intros id H; discriminate).
  - intros id H. injection H as <-. now split.
  - intros id H. injection H as <-. split; discriminate.
Qed.

(** Escaping and unescaping a field gives it back exactly when it holds
    neither [_DOLLAR_] nor [_DOLLAR$]. *)
Theorem escape_round_trip_iff (field : string) :
  unesacapeDollars (escapeDollars field) = field <->
  placeholder_free field = true.
Proof.
  split.
  - intros H. destruct (placeholder_free field) eqn:E; [reflexivity|].
    now apply unescape_escape_changes in E.
  - apply unescape_escape.
Qed.

(** Writing back what was parsed gives the input: always for a Grafana
    identifier, and for a cloud identifier when [String] renders the parsed
    hash as the fourth part read. *)
Theorem stringify_parse_round_trip (location : string)
    (id : RuleIdentifier number) :
  parse location = Ok id ->
  match id with
  | GrafanaRuleIdentifier _ => True
  | CloudRuleIdentifier _ _ _ ruleHash =>
      String_number ruleHash
      = unesacapeDollars (nth 3 (split "$" location) EmptyString)
  end ->
  stringify id = location.
Proof.
  unfold parseRuleIdentifier.
  pose proof (join_split "$" location) as Hjoin.
  pose proof (split_parts_plain "$" location) as Hplain.
  destruct (split "$" location) as [|a [|b [|c [|d [|e parts]]]]];
    cbn [List.length Nat.eqb]; try discriminate.
  - intros H _. injection H as <-. reflexivity.
  - intros H Hnum. injection H as <-.
    cbn [nth map] in *. cbn [stringifyRuleIdentifier map].
    rewrite Hnum.
    repeat match goal with
           | H : Forall _ (_ :: _) |- _ => apply Forall_cons_iff in H as [? H]
           end.
    now rewrite !escape_unescape by assumption.
Qed.

(** Fields without [$] are written as they are, joined by [$]. *)
Theorem stringify_plain_fields (ruleSourceName namespace groupName : string)
    (ruleHash : number) :
  includes "$" ruleSourceName = false ->
  includes "$" namespace = false ->
  includes "$" groupName = false ->
  includes "$" (String_number ruleHash) = false ->
  stringify (CloudRuleIdentifier ruleSourceName namespace groupName ruleHash)
  = ruleSourceName ++ "$" ++ namespace ++ "$" ++ groupName ++ "$"
      ++ String_number ruleHash.
Proof.
  intros Hs Hn Hg Hh. cbn [stringifyRuleIdentifier map join].
  now rewrite !escapeDollars_plain by assumption.
Qed.

End CodecFurther.

(** ** Serialisation is injective *)

Lemma unquoteChar_quoteChar (c : ascii) (rest : string) :
  unquoteChar (quoteChar c ++ rest) = Some (c, rest).
Proof.
  destruct c as [[] [] [] [] [] [] [] []]; reflexivity.
Qed.

Lemma quoteChars_prefix_inj (s1 s2 r1 r2 : string) :
  quoteChars s1 ++ String dquote r1 = quoteChars s2 ++ String dquote r2 ->
  s1 = s2 /\ r1 = r2.
Proof.
  revert s2. induction s1 as [|c1 s1 IH]; intros [|c2 s2] H; cbn [quoteChars] in H.
  - injection H as ->. now split.
  - exfalso. rewrite string_app_assoc in H.
    apply (f_equal unquoteChar) in H.
    rewrite unquoteChar_quoteChar in H. discriminate.
  - exfalso. rewrite string_app_assoc in H.
    apply (f_equal unquoteChar) in H.
    rewrite unquoteChar_quoteChar in H. discriminate.
  - rewrite !string_app_assoc in H.
    apply (f_equal unquoteChar) in H.
    rewrite !unquoteChar_quoteChar in H.
    injection H as -> H.
    destruct (IH _ H) as [-> ->]. now split.
Qed.

Lemma QuoteJSONString_prefix_inj (s1 s2 r1 r2 : string) :
  QuoteJSONString s1 ++ r1 = QuoteJSONString s2 ++ r2 -> s1 = s2 /\ r1 = r2.
Proof.
  unfold QuoteJSONString. cbn [String.append].
  rewrite !string_app_assoc. cbn [String.append].
  intros H. injection H as H.
  now apply quoteChars_prefix_inj.
Qed.

Lemma string_cons_inv (c : ascii) (s1 s2 : string) :
  String c s1 = String c s2 -> s1 = s2.
Proof. now intros [=]. Qed.

(** Lists of items written with a separating comma and a closing
    character. *)
Section JoinedItems.

Context {A : Type}.
Variable write : A -> string.
Variable close : ascii.

Hypothesis close_not_comma : close <> ","%char.
Hypothesis write_not_close :
  forall a r r', write a ++ r <> String close r'.

Lemma join_cons_app (a : A) (l : list A) (rest : string) :
  join "," (map write (a :: l)) ++ rest
  = write a ++ match l with
               | [] => rest
               | _ :: _ => String "," (join "," (map write l) ++ rest)
               end.
Proof.
  destruct l as [|b l]; [reflexivity|].
  cbn [map join]. now rewrite string_app_assoc.
Qed.

Lemma joined_items_inj (l1 l2 : list A) (r1 r2 : string) :
  Forall (fun a => forall b r r', write a ++ r = write b ++ r' ->
                                  a = b /\ r = r') l1 ->
  join "," (map write l1) ++ String close r1
  = join "," (map write l2) ++ String close r2 ->
  l1 = l2 /\ r1 = r2.
Proof.
  intros Hall. revert l2.
  induction Hall as [|a l1 Ha Hall IH]; intros [|b l2] H.
  - injection H as ->. now split.
  - exfalso. rewrite join_cons_app in H.
    symmetry in H. now apply write_not_close in H.
  - exfalso. rewrite join_cons_app in H.
    now apply write_not_close in H.
  - rewrite !join_cons_app in H.
    apply Ha in H as [<- H].
    destruct l1 as [|a1 l1], l2 as [|b1 l2].
    + injection H as ->. now split.
    + injection H as Hc. now contradiction close_not_comma.
    + injection H as Hc. symmetry in Hc. now contradiction close_not_comma.
    + apply string_cons_inv in H.
      destruct (IH _ H) as [-> ->]. now split.
Qed.

End JoinedItems.

(** Induction on [json] with the items of an array. *)
Lemma json_nested_ind (P : json -> Prop) :
  P JNull ->
  (forall s, P (JString s)) ->
  (forall items, Forall P items -> P (JArray items)) ->
  forall v, P v.
Proof.
  intros HN HS HA. fix IH 1. intros [| s | items].
  - exact HN.
  - apply HS.
  - apply HA. induction items as [|v items IHitems]; constructor.
    + apply IH.
    + exact IHitems.
Qed.

Lemma JSON_stringify_head (v : json) :
  exists c rest, JSON_stringify v = String c rest /\
    (c = "n" \/ c = dquote \/ c = "[")%char.
Proof.
  destruct v as [| s | items]; cbn [JSON_stringify]; do 2 eexists; split;
    try reflexivity; auto.
Qed.

Lemma JSON_stringify_not_close (v : json) (r r' : string) :
  JSON_stringify v ++ r <> String "]" r'.
Proof.
  destruct (JSON_stringify_head v) as (c & rest & -> & Hc).
  cbn [String.append]. intros H. injection H as -> _.
  destruct Hc as [Hc | [Hc | Hc]]; discriminate.
Qed.

Lemma JSON_stringify_prefix_inj (v1 : json) :
  forall v2 r1 r2,
    JSON_stringify v1 ++ r1 = JSON_stringify v2 ++ r2 -> v1 = v2 /\ r1 = r2.
Proof.
  induction v1 as [| s1 | items1 IH] using json_nested_ind;
    intros [| s2 | items2] r1 r2 H; try discriminate.
  - cbn [JSON_stringify] in H. apply string_app_inv_head in H. now split.
  - apply QuoteJSONString_prefix_inj in H as [-> ->]. now split.
  - cbn [JSON_stringify] in H. cbn [String.append] in H.
    injection H as H. rewrite !string_app_assoc in H.
    cbn [String.append] in H.
    apply joined_items_inj in H as [-> ->]; try now split.
    + discriminate.
    + apply JSON_stringify_not_close.
    + exact IH.
Qed.

Lemma JSON_stringify_inj (v1 v2 : json) :
  JSON_stringify v1 = JSON_stringify v2 -> v1 = v2.
Proof.
  intros H.
  apply (JSON_stringify_prefix_inj v1 v2 EmptyString EmptyString).
  now rewrite H.
Qed.

(** ** Canonical strings and keys, continued *)

Lemma entry_json_inj (e1 e2 : string * string) :
  entry_json e1 = entry_json e2 -> e1 = e2.
Proof.
  destruct e1, e2. unfold entry_json. cbn [fst snd]. now intros [= -> ->].
Qed.

Lemma map_inj {A B : Type} (f : A -> B) (l1 l2 : list A) :
  (forall a b, f a = f b -> a = b) -> map f l1 = map f l2 -> l1 = l2.
Proof.
  intros Hf. revert l2.
  induction l1 as [|a l1 IH]; intros [|b l2] H; try discriminate.
  - reflexivity.
  - injection H as Hab H. f_equal; [now apply Hf | now apply IH].
Qed.

Lemma Ok_inj {A : Type} (a b : A) : Ok a = Ok b -> a = b.
Proof. now intros [=]. Qed.

Lemma recording_array_inj (a b a' b' : json) (c c' : string) :
  JArray [a; b; JString c] = JArray [a'; b'; JString c'] ->
  a = a' /\ b = b' /\ c = c'.
Proof. now intros [= -> -> ->]. Qed.

Lemma alerting_array_inj (a b a' b' : json) (c d c' d' : string) :
  JArray [a; b; JString c; JString d] = JArray [a'; b'; JString c'; JString d'] ->
  a = a' /\ b = b' /\ c = c' /\ d = d'.
Proof. now intros [= -> -> -> ->]. Qed.

Lemma json_of_property_inj (p q : option string) :
  json_of_property p = json_of_property q -> p = q.
Proof. destruct p, q; cbn; congruence. Qed.

Lemma member_text_prefix_inj (e1 e2 : string * string) (r1 r2 : string) :
  member_text e1 ++ r1 = member_text e2 ++ r2 -> e1 = e2 /\ r1 = r2.
Proof.
  destruct e1 as [k1 v1], e2 as [k2 v2]. unfold member_text. cbn [fst snd].
  rewrite !string_app_assoc. intros H.
  apply QuoteJSONString_prefix_inj in H as [-> H].
  cbn [String.append] in H. apply string_cons_inv in H.
  apply QuoteJSONString_prefix_inj in H as [-> ->]. now split.
Qed.

(** The canonical string of a mapping under a comparator that tells its
    names apart does not depend on the order of the entries. *)
Lemma canonicalize_same_entries (comparefn : string -> string -> Z)
    (item1 item2 : option Labels) :
  ConsistentComparator comparefn ->
  same_entries comparefn item1 item2 ->
  hashLabelsOrAnnotations comparefn item1
  = hashLabelsOrAnnotations comparefn item2.
Proof.
  intros [Hflip Htrans] (Hnd & Hdist & P).
  unfold hashLabelsOrAnnotations.
  fold (labels_or_empty item1). fold (labels_or_empty item2).
  do 3 f_equal.
  apply sort_permutation_invariant;
    [| | |now rewrite !Object_entries_permutation].
  - intros a b Hab. apply Z.lt_le_incl. now apply Hflip.
  - intros a b c. apply Htrans.
  - intros a b Ha Hb Hab Hba.
    apply (Permutation_in _ (Object_entries_permutation (labels_or_empty item1)))
      in Ha, Hb.
    apply (unique_names_entry (labels_or_empty item1)); try assumption.
    apply Hdist; try now apply in_map.
    destruct (Z.eq_dec (comparefn (fst a) (fst b)) 0) as [E | E]; [exact E|].
    assert (Hlt : (comparefn (fst a) (fst b) < 0)%Z) by lia.
    apply Hflip in Hlt. lia.
Qed.

Section FingerprintFurther.

Variable number : Type.
Variable hash : string -> number.
Variable localeCompare : string -> string -> Z.

Local Abbreviation canonicalize := (hashLabelsOrAnnotations localeCompare).
Local Abbreviation fingerprint := (hashRulerRule number hash localeCompare).
Local Abbreviation derive := (getRuleIdentifier number hash localeCompare).

Lemma same_canonical_same_entries (item1 item2 : option Labels) :
  canonicalize item1 = canonicalize item2 ->
  Permutation (labels_or_empty item1) (labels_or_empty item2).
Proof.
  unfold hashLabelsOrAnnotations.
  fold (labels_or_empty item1). fold (labels_or_empty item2).
  intros H. apply JSON_stringify_inj in H. injection H as H.
  apply map_inj in H; [|exact entry_json_inj].
  rewrite <- (Object_entries_permutation (labels_or_empty item1)).
  rewrite <- (Object_entries_permutation (labels_or_empty item2)).
  rewrite <- (sort_permutation
                (fun a b => localeCompare (fst a) (fst b))
                (Object_entries (labels_or_empty item1))), H.
  apply sort_permutation.
Qed.

(** Two mappings with the same canonical string have the same entries,
    whatever the comparator; [undefined] counts as the empty mapping. *)
Theorem canonical_string_determines_entries (item1 item2 : option Labels) :
  canonicalize item1 = canonicalize item2 ->
  Permutation (labels_or_empty item1) (labels_or_empty item2).
Proof. exact (same_canonical_same_entries item1 item2). Qed.

(** The text passed to [hash] determines the rule as far as it is hashed:
    two rules with the same text are both recording or both alerting rules,
    with the same name and expression and the same labels and, for alerting
    rules, the same annotations. *)
Theorem hashedText_determines_rule (rule1 rule2 : RulerRuleDTO) (text : string) :
  hashedText localeCompare rule1 = Ok text ->
  hashedText localeCompare rule2 = Ok text ->
  isRecordingRulerRule rule1 = isRecordingRulerRule rule2 /\
  expr rule1 = expr rule2 /\
  Permutation (labels_or_empty (labels rule1)) (labels_or_empty (labels rule2)) /\
  (if isRecordingRulerRule rule1
   then record rule1 = record rule2
   else alert rule1 = alert rule2 /\
        Permutation (labels_or_empty (annotations rule1))
                    (labels_or_empty (annotations rule2))).
Proof.
  unfold hashedText, hashRulerRule.
  destruct (isRecordingRulerRule rule1), (isRecordingRulerRule rule2).
  - intros H1 H2. pose proof (Ok_inj _ _ (eq_trans H1 (eq_sym H2))) as H.
    apply JSON_stringify_inj in H.
    apply recording_array_inj in H as (Hr & He & Hl).
    apply json_of_property_inj in Hr, He.
    apply same_canonical_same_entries in Hl.
    repeat split; (assumption || now symmetry).
  - destruct (isAlertingRulerRule rule2); [|discriminate].
    intros H1 H2. pose proof (Ok_inj _ _ (eq_trans H1 (eq_sym H2))) as H.
    apply JSON_stringify_inj in H. discriminate.
  - destruct (isAlertingRulerRule rule1); [|discriminate].
    intros H1 H2. pose proof (Ok_inj _ _ (eq_trans H1 (eq_sym H2))) as H.
    apply JSON_stringify_inj in H. discriminate.
  - destruct (isAlertingRulerRule rule1); [|discriminate].
    destruct (isAlertingRulerRule rule2); [|discriminate].
    intros H1 H2. pose proof (Ok_inj _ _ (eq_trans H1 (eq_sym H2))) as H.
    apply JSON_stringify_inj in H.
    apply alerting_array_inj in H as (Ha & He & Han & Hl).
    apply json_of_property_inj in Ha, He.
    apply same_canonical_same_entries in Han, Hl.
    repeat split; (assumption || now symmetry).
Qed.

(** The hash of a rule does not depend on the order in which its labels
    and annotations were inserted, when the comparator is consistent and
    tells their names apart. *)
Theorem hashRulerRule_entry_order (rule1 rule2 : RulerRuleDTO) :
  ConsistentComparator localeCompare ->
  record rule1 = record rule2 ->
  alert rule1 = alert rule2 ->
  expr rule1 = expr rule2 ->
  same_entries localeCompare (labels rule1) (labels rule2) ->
  same_entries localeCompare (annotations rule1) (annotations rule2) ->
  fingerprint rule1 = fingerprint rule2.
Proof.
  intros Hc Hr Ha He Hl Han.
  unfold hashRulerRule, isRecordingRulerRule, isAlertingRulerRule.
  rewrite Hr, Ha, He.
  rewrite (canonicalize_same_entries _ _ _ Hc Hl).
  now rewrite (canonicalize_same_entries _ _ _ Hc Han).
Qed.

(** A rule with a [record] property is hashed as a recording rule whatever
    else it has: its [alert], [annotations] and [grafana_alert] properties
    do not enter the hash. *)
Theorem hashRulerRule_record_first (rule1 rule2 : RulerRuleDTO)
    (recordName : string) :
  record rule1 = Some recordName ->
  record rule2 = Some recordName ->
  expr rule1 = expr rule2 ->
  labels rule1 = labels rule2 ->
  fingerprint rule1 = fingerprint rule2.
Proof.
  intros H1 H2 He Hl. unfold hashRulerRule, isRecordingRulerRule.
  now rewrite H1, H2, He, Hl.
Qed.

(** [getRuleIdentifier] throws exactly on the rules that have none of the
    properties [grafana_alert], [record] and [alert], and then with the
    message of [hashRulerRule]. *)
Theorem getRuleIdentifier_throws (ruleSourceName namespace groupName : string)
    (rule : RulerRuleDTO) :
  (distinguishing_fields rule = 0 ->
   derive ruleSourceName namespace groupName rule
   = Throw "only recording and alerting ruler rules can be hashed") /\
  (forall message,
   derive ruleSourceName namespace groupName rule = Throw message ->
   distinguishing_fields rule = 0).
Proof.
  unfold getRuleIdentifier, hashRulerRule, distinguishing_fields,
    isGrafanaRulerRule, isRecordingRulerRule, isAlertingRulerRule.
  destruct (grafana_alert rule), (record rule), (alert rule);
    cbn; split; try reflexivity; try discriminate; try lia.
Qed.

(** The identifier of a rule depends on the location only through the three
    fields of a cloud identifier: at another location a Grafana rule gets
    the same identifier and a cloud rule the same hash; and the identifier
    is a Grafana identifier exactly when the rule is a Grafana rule. *)
Theorem getRuleIdentifier_location (ruleSourceName namespace groupName : string)
    (rule : RulerRuleDTO) (id : RuleIdentifier number) :
  derive ruleSourceName namespace groupName rule = Ok id ->
  isGrafanaRuleIdentifier id = isGrafanaRulerRule (Some rule) /\
  forall ruleSourceName' namespace' groupName',
    derive ruleSourceName' namespace' groupName' rule
    = Ok match id with
         | GrafanaRuleIdentifier uid => GrafanaRuleIdentifier uid
         | CloudRuleIdentifier _ _ _ ruleHash =>
             CloudRuleIdentifier ruleSourceName' namespace' groupName' ruleHash
         end.
Proof.
  unfold getRuleIdentifier, isGrafanaRulerRule.
  destruct (grafana_alert rule) as [definition|]; cbn [has_property].
  - intros [= <-]. now split.
  - destruct (fingerprint rule) as [h|m]; cbn [bind]; [|discriminate].
    intros [= <-]. now split.
Qed.

(** What the identifier of a rule with its location holds: the uid of the
    [grafana_alert] block, or else the source name, the namespace, the name
    of the group and the hash of the rule. *)
Theorem ruleWithLocation_identifier (ruleWithLocation : RuleWithLocation)
    (id : RuleIdentifier number) :
  ruleWithLocationToRuleIdentifier hash localeCompare ruleWithLocation = Ok id ->
  match id with
  | GrafanaRuleIdentifier uid' =>
      exists definition,
        grafana_alert (rule ruleWithLocation) = Some definition /\
        uid' = uid definition
  | CloudRuleIdentifier source space groupName ruleHash =>
      source = ruleSourceName ruleWithLocation /\
      space = namespace ruleWithLocation /\
      groupName = name (group ruleWithLocation) /\
      grafana_alert (rule ruleWithLocation) = None /\
      fingerprint (rule ruleWithLocation) = Ok ruleHash
  end.
Proof.
  unfold ruleWithLocationToRuleIdentifier, getRuleIdentifier, isGrafanaRulerRule.
  destruct (grafana_alert (rule ruleWithLocation)) as [definition|];
    cbn [has_property].
  - intros [= <-]. now exists definition.
  - destruct (fingerprint (rule ruleWithLocation)) as [h|m]; cbn [bind];
      [|discriminate].
    intros [= <-]. now repeat split.
Qed.

End FingerprintFurther.

(** The key of an alert instance is the serialised labels in the order of
    enumeration: two alerts have the same key exactly when [Object.entries]
    yields the same entries in the same order for their labels; when no
    label name is an array index, exactly when the labels hold the same
    entries in the same order of insertion. *)
Theorem alertInstanceKey_inj (alert1 alert2 : AlertDTO.Alert) :
  (alertInstanceKey alert1 = alertInstanceKey alert2 <->
   Object_entries (AlertDTO.labels alert1)
   = Object_entries (AlertDTO.labels alert2)) /\
  (plain_names (AlertDTO.labels alert1) = true ->
   plain_names (AlertDTO.labels alert2) = true ->
   (alertInstanceKey alert1 = alertInstanceKey alert2 <->
    AlertDTO.labels alert1 = AlertDTO.labels alert2)).
Proof.
  assert (Hkey : alertInstanceKey alert1 = alertInstanceKey alert2 <->
                 Object_entries (AlertDTO.labels alert1)
                 = Object_entries (AlertDTO.labels alert2)).
  { split; [|unfold alertInstanceKey, JSON_stringify_object; now intros ->].
    unfold alertInstanceKey, JSON_stringify_object.
    cbn [String.append]. intros H. apply string_cons_inv in H.
    apply (joined_items_inj member_text "}") in H.
    - now destruct H.
    - discriminate.
    - intros [k v] r r'. unfold member_text, QuoteJSONString.
      cbn [String.append]. discriminate.
    - apply Forall_forall. intros e _ b r r'. apply member_text_prefix_inj. }
  split; [exact Hkey|].
  unfold plain_names. intros H1 H2.
  rewrite Hkey. now rewrite !Object_entries_plain by assumption.
Qed.

(** * The further properties on concrete inputs *)

Lemma stringify_collision_witness :
  includes "$" "cortex$prod" = true /\
  stringifyRuleIdentifier IntNumber String_int
    (CloudRuleIdentifier (escapeDollars "cortex$prod") "ns-a" "grp-1" (Int 7))
  = stringifyRuleIdentifier IntNumber String_int
      (CloudRuleIdentifier "cortex$prod" "ns-a" "grp-1" (Int 7)).
Proof.
  split; [reflexivity|].
  apply (stringify_collision IntNumber String_int
           "cortex$prod" "ns-a" "grp-1" (Int 7)).
  reflexivity.
Defined.

Lemma parse_by_delimiter_count_witness :
  (count_char "$" "a$b$c" <> 0 /\ count_char "$" "a$b$c" <> 3) /\
  exists message,
    parseRuleIdentifier IntNumber Number_int "a$b$c" = Throw message.
Proof.
  assert (H : count_char "$" "a$b$c" <> 0 /\ count_char "$" "a$b$c" <> 3)
    by (split; vm_compute; discriminate).
  split; [exact H|].
  exact (proj2 (proj1 (parse_by_delimiter_count IntNumber Number_int "a$b$c")) H).
Defined.

Lemma escape_round_trip_iff_witness :
  placeholder_free "cortex$prod" = true /\
  unesacapeDollars (escapeDollars "cortex$prod") = "cortex$prod".
Proof.
  split; [reflexivity|].
  apply (proj2 (escape_round_trip_iff "cortex$prod")). reflexivity.
Defined.

Lemma parse_stringify_round_trip_only_witness :
  parseRuleIdentifier IntNumber Number_int
    (stringifyRuleIdentifier IntNumber String_int cortexIdentifier)
  = Ok cortexIdentifier /\
  placeholder_free "cortex$prod" = true.
Proof.
  assert (H : parseRuleIdentifier IntNumber Number_int
                (stringifyRuleIdentifier IntNumber String_int cortexIdentifier)
              = Ok cortexIdentifier) by reflexivity.
  split; [exact H|].
  exact (proj1 (parse_stringify_round_trip_only IntNumber String_int Number_int
                  cortexIdentifier H)).
Defined.

Lemma stringify_parse_round_trip_witness :
  parseRuleIdentifier IntNumber Number_int "mimir-1$ns-a$grp-1$1522229344"
  = Ok (CloudRuleIdentifier "mimir-1" "ns-a" "grp-1" (Int 1522229344)) /\
  stringifyRuleIdentifier IntNumber String_int
    (CloudRuleIdentifier "mimir-1" "ns-a" "grp-1" (Int 1522229344))
  = "mimir-1$ns-a$grp-1$1522229344".
Proof.
  split; [reflexivity|].
  apply (stringify_parse_round_trip IntNumber String_int Number_int
           "mimir-1$ns-a$grp-1$1522229344"
           (CloudRuleIdentifier "mimir-1" "ns-a" "grp-1" (Int 1522229344)));
    reflexivity.
Defined.

Lemma stringify_plain_fields_witness :
  stringifyRuleIdentifier IntNumber String_int
    (CloudRuleIdentifier "mimir-1" "ns-a" "grp-1" (Int 1522229344))
  = "mimir-1" ++ "$" ++ "ns-a" ++ "$" ++ "grp-1" ++ "$"
      ++ String_int (Int 1522229344).
Proof.
  apply (stringify_plain_fields IntNumber String_int
           "mimir-1" "ns-a" "grp-1" (Int 1522229344)); reflexivity.
Defined.

Lemma canonical_string_determines_entries_witness :
  hashLabelsOrAnnotations codeUnitCompare (Some teamThenEnv)
  = hashLabelsOrAnnotations codeUnitCompare (Some envThenTeam) /\
  Permutation teamThenEnv envThenTeam.
Proof.
  split; [reflexivity|].
  apply (canonical_string_determines_entries codeUnitCompare
           (Some teamThenEnv) (Some envThenTeam)).
  reflexivity.
Defined.

Lemma hashedText_determines_rule_witness :
  hashedText codeUnitCompare highLoadAlertingRule
  = hashedText codeUnitCompare highLoadAlertingRuleReordered /\
  alert highLoadAlertingRule = alert highLoadAlertingRuleReordered /\
  Permutation [("severity", "page"); ("team", "infra")]
              [("team", "infra"); ("severity", "page")].
Proof.
  split; [reflexivity|].
  destruct (hashedText codeUnitCompare highLoadAlertingRule) as [text|m] eqn:E;
    [|discriminate].
  pose proof (hashedText_determines_rule codeUnitCompare
                highLoadAlertingRule highLoadAlertingRuleReordered text
                E E) as (_ & _ & Hl & Ha & _).
  split; [exact Ha | exact Hl].
Defined.

Lemma same_entries_severity_team :
  same_entries codeUnitCompare
    (Some [("severity", "page"); ("team", "infra")])
    (Some [("team", "infra"); ("severity", "page")]).
Proof.
  repeat split.
  - repeat constructor; simpl; intuition discriminate.
  - apply codeUnitCompare_distinguishes.
  - apply perm_swap.
Defined.

Lemma same_entries_refl (item : option Labels) :
  NoDup (map fst (labels_or_empty item)) ->
  same_entries codeUnitCompare item item.
Proof.
  intros H. repeat split.
  - exact H.
  - apply codeUnitCompare_distinguishes.
  - apply Permutation_refl.
Defined.

Lemma hashRulerRule_entry_order_witness :
  hashRulerRule IntNumber sampleHash codeUnitCompare highLoadAlertingRule
  = hashRulerRule IntNumber sampleHash codeUnitCompare
      highLoadAlertingRuleReordered.
Proof.
  apply (hashRulerRule_entry_order IntNumber sampleHash codeUnitCompare
           highLoadAlertingRule highLoadAlertingRuleReordered).
  - exact codeUnitCompare_consistent.
  - reflexivity.
  - reflexivity.
  - reflexivity.
  - exact same_entries_severity_team.
  - apply same_entries_refl. repeat constructor. intros [].
Defined.

Lemma hashRulerRule_record_first_witness :
  hashRulerRule IntNumber sampleHash codeUnitCompare cpuRecordingRuleWithAlert
  = hashRulerRule IntNumber sampleHash codeUnitCompare cpuRecordingRule.
Proof.
  apply (hashRulerRule_record_first IntNumber sampleHash codeUnitCompare
           cpuRecordingRuleWithAlert cpuRecordingRule "cpu:alert");
    reflexivity.
Defined.

Lemma getRuleIdentifier_throws_witness :
  distinguishing_fields shapelessRule = 0 /\
  getRuleIdentifier IntNumber sampleHash codeUnitCompare
    "mimir-1" "ns-a" "grp-1" shapelessRule
  = Throw "only recording and alerting ruler rules can be hashed".
Proof.
  split; [reflexivity|].
  apply (proj1 (getRuleIdentifier_throws IntNumber sampleHash codeUnitCompare
                  "mimir-1" "ns-a" "grp-1" shapelessRule)).
  reflexivity.
Defined.

Lemma getRuleIdentifier_location_witness :
  getRuleIdentifier IntNumber sampleHash codeUnitCompare
    "mimir-1" "ns-a" "grp-1" cpuRecordingRule
  = Ok (CloudRuleIdentifier "mimir-1" "ns-a" "grp-1" (Int 1522229344)) /\
  getRuleIdentifier IntNumber sampleHash codeUnitCompare
    "mimir-2" "ns-b" "grp-2" cpuRecordingRule
  = Ok (CloudRuleIdentifier "mimir-2" "ns-b" "grp-2" (Int 1522229344)).
Proof.
  assert (H : getRuleIdentifier IntNumber sampleHash codeUnitCompare
                "mimir-1" "ns-a" "grp-1" cpuRecordingRule
              = Ok (CloudRuleIdentifier "mimir-1" "ns-a" "grp-1"
                      (Int 1522229344)))
    by (vm_compute; reflexivity).
  split; [exact H|].
  exact (proj2 (getRuleIdentifier_location IntNumber sampleHash codeUnitCompare
                  "mimir-1" "ns-a" "grp-1" cpuRecordingRule _ H)
           "mimir-2" "ns-b" "grp-2").
Defined.

Lemma ruleWithLocation_identifier_witness :
  ruleWithLocationToRuleIdentifier sampleHash codeUnitCompare cpuRuleWithLocation
  = Ok (CloudRuleIdentifier "mimir-1" "ns-a" "grp-1" (Int 1522229344)) /\
  hashRulerRule IntNumber sampleHash codeUnitCompare cpuRecordingRule
  = Ok (Int 1522229344).
Proof.
  assert (H : ruleWithLocationToRuleIdentifier sampleHash codeUnitCompare
                cpuRuleWithLocation
              = Ok (CloudRuleIdentifier "mimir-1" "ns-a" "grp-1"
                      (Int 1522229344)))
    by (vm_compute; reflexivity).
  split; [exact H|].
  exact (proj2 (proj2 (proj2 (proj2
           (ruleWithLocation_identifier IntNumber sampleHash codeUnitCompare
              cpuRuleWithLocation _ H))))).
Defined.

Lemma alertInstanceKey_inj_witness :
  alertInstanceKey twoThenOneAlert = doubleQuoted "{'1':'a','2':'b'}" /\
  alertInstanceKey twoThenOneAlert = alertInstanceKey oneThenTwoAlert /\
  (alertInstanceKey teamThenEnvAlert
   = alertInstanceKey {| AlertDTO.labels := envThenTeam |} ->
   teamThenEnv = envThenTeam).
Proof.
  split; [reflexivity|]. split.
  - apply (proj2 (proj1 (alertInstanceKey_inj twoThenOneAlert oneThenTwoAlert))).
    reflexivity.
  - apply (proj1 (proj2 (alertInstanceKey_inj teamThenEnvAlert
                             {| AlertDTO.labels := envThenTeam |})
                    eq_refl eq_refl)).
Defined.
